(** * Machine claimer backend (src/src/index.ts, buffer-scaling revision)

    A shallow embedding of the Express handlers [/register], [/heartbeat],
    [/claim], [/release] and of the helpers [countAvailableWorkers] and
    [scaleToMeetBuffer], over a small model of the two AWS services the file
    talks to (a DynamoDB table keyed by [instanceId] and one Auto Scaling
    group), followed by the properties of the lease and capacity logic. *)

From Stdlib Require Import ZArith String List Lia.
From stdpp Require Import gmap strings list fin_maps pretty.

Local Open Scope string_scope.
Local Open Scope Z_scope.

Set Warnings "-register-all".

(** ** JavaScript values *)

(** The values the handlers read from [req.body], store in the table and put
    in their JSON replies.  Numbers are the integers ([Date.now()], counts and
    capacities are all integral); strings are sequences of bytes, the UTF-8
    encoding of the text, so that [String.length] is the size in bytes. *)
Inductive Value : Type :=
  | VUndefined
  | VNull
  | VBool (b : bool)
  | VNum (n : Z)
  | VStr (s : string)
  | VObj (fields : list (string * Value)).

(** [!!v] of JavaScript. *)
Definition truthy (v : Value) : bool :=
  match v with
  | VUndefined | VNull => false
  | VBool b => b
  | VNum n => negb (n =? 0)
  | VStr s => negb (String.eqb s "")
  | VObj _ => true
  end.

(** [a || b]. *)
Definition orElse (a b : Value) : Value := if truthy a then a else b.

(** [a ?? b] on an optional number of an SDK reply. *)
Definition nullish (a : option Z) (b : Z) : Z :=
  match a with Some n => n | None => b end.

(** [String(v)], as used by template literals. *)
Definition jsString (v : Value) : string :=
  match v with
  | VUndefined => "undefined"
  | VNull => "null"
  | VBool true => "true"
  | VBool false => "false"
  | VNum n => pretty n
  | VStr s => s
  | VObj _ => "[object Object]"
  end.

(** [s.includes(sub)]. *)
Fixpoint includes (s sub : string) : bool :=
  String.prefix sub s ||
  match s with
  | EmptyString => false
  | String _ rest => includes rest sub
  end.

(** Property read [o.a] on an object held as a finite map: a missing
    property reads as [undefined]. *)
Definition prop (o : gmap string Value) (a : string) : Value :=
  default VUndefined (o !! a).

(** ** Exceptions and replies *)

Record Exn : Type := mkExn { name : string; message : string }.

Record Response : Type := mkResponse { statusCode : Z; json : Value }.

(** ** CONFIG (lines 229-239) *)

Definition ASG_NAME : string := "on-demand-machine-asg".
Definition LEASE_TTL_MS : Z := 10 * 60 * 1000.
Definition HEARTBEAT_MAX_AGE_MS : Z := 60 * 1000.
Definition SCALE_COOLDOWN_MS : Z := 30 * 1000.

(** ** The world the handlers run in *)

(** What [DescribeAutoScalingGroups] reports of a group; both numbers are
    optional in the SDK's reply type. *)
Record Group : Type := mkGroup {
  DesiredCapacity : option Z;
  MaxSize : option Z
}.

(** Commands sent through the Auto Scaling client, oldest first. *)
Inductive AsgCommand : Type :=
  | DescribeAutoScalingGroupsCommand
  | SetDesiredCapacityCommand (desiredCapacity : Z).

(** - [table]: the DynamoDB table; an item is held under its partition key
      [instanceId] as the map of its other attributes (a stored [null] is
      [VNull], an absent attribute is absent from the map);
    - [asgGroup]: the group named [ASG_NAME], if there is one;
    - [asgSent]: every command sent to the Auto Scaling service so far;
    - [lastScaleOutAt]: the module-level variable of line 239;
    - [clock], [ticks]: [Date.now()] returns [clock ticks] and the next call
      reads the next entry, so successive readings may differ. *)
Record World : Type := mkWorld {
  table : gmap string (gmap string Value);
  asgGroup : option Group;
  asgSent : list AsgCommand;
  lastScaleOutAt : Z;
  clock : nat -> Z;
  ticks : nat
}.

Definition set_table (f : gmap string (gmap string Value) -> gmap string (gmap string Value))
    (w : World) : World :=
  mkWorld (f (table w)) (asgGroup w) (asgSent w) (lastScaleOutAt w) (clock w) (ticks w).

Definition set_asgGroup (g : option Group) (w : World) : World :=
  mkWorld (table w) g (asgSent w) (lastScaleOutAt w) (clock w) (ticks w).

Definition log_asg (c : AsgCommand) (w : World) : World :=
  mkWorld (table w) (asgGroup w) (asgSent w ++ [c]) (lastScaleOutAt w) (clock w) (ticks w).

Definition set_lastScaleOutAt (t : Z) (w : World) : World :=
  mkWorld (table w) (asgGroup w) (asgSent w) t (clock w) (ticks w).

Definition tick (w : World) : World :=
  mkWorld (table w) (asgGroup w) (asgSent w) (lastScaleOutAt w) (clock w) (S (ticks w)).

(** ** Computations: state passing with exceptions *)

Inductive Result (A : Type) : Type :=
  | Ok (a : A)
  | Throw (e : Exn).
Arguments Ok {A} a.
Arguments Throw {A} e.

Definition M (A : Type) : Type := World -> Result A * World.

Definition ret {A} (a : A) : M A := fun w => (Ok a, w).

Definition throw {A} (e : Exn) : M A := fun w => (Throw e, w).

Definition bind {A B} (m : M A) (k : A -> M B) : M B :=
  fun w =>
    match m w with
    | (Ok a, w') => k a w'
    | (Throw e, w') => (Throw e, w')
    end.

(** [try { body } catch (err) { handler }]. *)
Definition try_catch {A} (body : M A) (handler : Exn -> M A) : M A :=
  fun w =>
    match body w with
    | (Ok a, w') => (Ok a, w')
    | (Throw e, w') => handler e w'
    end.

Notation "'let!' x ':=' m 'in' k" := (bind m (fun x => k))
  (at level 10, x name, m at level 100, k at level 200).
Notation "'do!' m 'in' k" := (bind m (fun _ => k))
  (at level 10, m at level 100, k at level 200).

(** [Array.prototype.filter] with a callback that runs in [M]: the callback
    is applied to the elements in order. *)
Fixpoint filterM {A} (p : A -> M bool) (l : list A) : M (list A) :=
  match l with
  | [] => ret []
  | x :: rest =>
      let! keep := p x in
      let! kept := filterM p rest in
      ret (if keep then x :: kept else kept)
  end.

(** [const now = () => Date.now()] (line 247). *)
Definition now : M Z := fun w => (Ok (clock w (ticks w)), tick w).

(** ** DynamoDB document client *)

Definition ValidationException : Exn :=
  mkExn "ValidationException" "One or more parameter values were invalid".
Definition ConditionalCheckFailedException : Exn :=
  mkExn "ConditionalCheckFailedException" "The conditional request failed".

(** The document client turns the values of a command into attribute values
    before anything is sent (marshalling, with the default options) and
    throws on a value it has no attribute value for: [undefined], and a
    number outside the safe integers, for which it asks for a BigInt.
    Strings (the empty one too), booleans, [null] and objects of such values
    are converted. *)
Definition MAX_SAFE_INTEGER : Z := 2 ^ 53 - 1.

Definition safeInteger (n : Z) : bool :=
  (- MAX_SAFE_INTEGER <=? n) && (n <=? MAX_SAFE_INTEGER).

Fixpoint marshallable (v : Value) : bool :=
  match v with
  | VUndefined => false
  | VNull | VBool _ | VStr _ => true
  | VNum n => safeInteger n
  | VObj fields => forallb (fun '(_, x) => marshallable x) fields
  end.

(** [Date.now()] only ever returns a safe integer, and so is that number plus
    [LEASE_TTL_MS].  The clock of a [World] is any function, so the number a
    handler has just read from it, alone or with the lease TTL added, counts
    as marshallable whatever its size. *)
Definition justRead (w : World) (v : Value) : bool :=
  match v, ticks w with
  | VNum n, S i => (n =? clock w i) || (n =? clock w i + LEASE_TTL_MS)
  | _, _ => false
  end.

Definition marshals (w : World) (v : Value) : bool :=
  marshallable v || justRead w v.

(** The error of the marshaller; its message, which quotes the value, is
    left out (the handlers only log it). *)
Definition MarshallError : Exn := mkExn "Error" "The value cannot be marshalled".

(** The partition key [instanceId] is a string attribute; a key of any other
    type is refused by the service. *)
Definition ddbKey (v : Value) : option string :=
  match v with
  | VStr s => Some s
  | _ => None
  end.

(** A partition key is a non-empty string of at most 2048 bytes; the service
    refuses a request that names any other key.  An item that the table holds
    was accepted under its key, so a key that is present is served whatever
    its size (in a table built through the service alone the two tests
    agree). *)
Definition keyOk (s : string) : bool :=
  negb (String.eqb s "") && (String.length s <=? 2048)%nat.

Definition keyAccepted (tb : gmap string (gmap string Value)) (s : string) : bool :=
  match tb !! s with
  | Some _ => true
  | None => keyOk s
  end.

(** The item stored under [k], as the service returns it: its attributes
    together with its key. *)
Definition withKey (k : string) (attrs : gmap string Value) : gmap string Value :=
  <["instanceId" := VStr k]> attrs.

Definition getItem (tb : gmap string (gmap string Value)) (k : string)
    : option (gmap string Value) :=
  withKey k <$> tb !! k.

(** The comparison [#a = :s] of a filter or condition expression, for a
    string [:s]; it is false on an attribute that is absent. *)
Definition attrIs (a s : string) (attrs : gmap string Value) : bool :=
  match attrs !! a with
  | Some (VStr s') => String.eqb s' s
  | _ => false
  end.

(** [PutCommand]: the client marshals the item, the service checks its key,
    and the item replaces whatever is stored under that key.  A request that
    is refused changes nothing.  (The service also refuses an item above
    400 KB; [express.json()] caps a request body at 100 kb, so the items these
    handlers build stay below that, and the limit is left out.) *)
Definition PutCommand (Item : gmap string Value) : M unit :=
  fun w =>
    if negb (forallb (fun av => marshals w av.2) (map_to_list Item))
    then (Throw MarshallError, w)
    else
      match ddbKey (prop Item "instanceId") with
      | Some k =>
          if keyAccepted (table w) k
          then (Ok tt, set_table (<[k := delete "instanceId" Item]>) w)
          else (Throw ValidationException, w)
      | None => (Throw ValidationException, w)
      end.

Definition applySet (attrs : gmap string Value) (sets : list (string * Value))
    : gmap string Value :=
  foldl (fun m '(a, v) => <[a := v]> m) attrs sets.

(** [UpdateCommand] with an [UpdateExpression] made of [SET a = v] clauses and
    an optional [ConditionExpression] of the form [#a = :s].  The client
    marshals the key and the values, the service checks the key; UpdateItem
    then edits the attributes of an existing item or adds a new item if none
    exists; with a condition that does not hold (in particular on a missing
    item) it changes nothing and fails with
    [ConditionalCheckFailedException]. *)
Definition UpdateCommand (Key : Value) (sets : list (string * Value))
    (ConditionExpression : option (string * string)) : M unit :=
  fun w =>
    if negb (forallb (fun av => marshals w av.2) (("instanceId", Key) :: sets))
    then (Throw MarshallError, w)
    else
      match ddbKey Key with
      | None => (Throw ValidationException, w)
      | Some k =>
          if negb (keyAccepted (table w) k) then (Throw ValidationException, w)
          else
            let holds :=
              match ConditionExpression with
              | None => true
              | Some (a, s) =>
                  match table w !! k with
                  | Some attrs => attrIs a s attrs
                  | None => false
                  end
              end in
            if holds
            then (Ok tt, set_table (<[k := applySet (default ∅ (table w !! k)) sets]>) w)
            else (Throw ConditionalCheckFailedException, w)
      end.

(** The items of the table, in the order a Scan returns them (the service
    promises no particular order; nothing below depends on it). *)
Definition tableItems (tb : gmap string (gmap string Value)) : list (gmap string Value) :=
  (fun kv => withKey kv.1 kv.2) <$> map_to_list tb.

(** [ScanCommand] with [FilterExpression: "#a = :s"]; [scanResp.Items || []]. *)
Definition ScanCommand (a s : string) : M (list (gmap string Value)) :=
  fun w => (Ok (filter (fun m => Is_true (attrIs a s m)) (tableItems (table w))), w).

(** ** Auto Scaling client *)

Definition ValidationError (msg : string) : Exn := mkExn "ValidationError" msg.

(** [DescribeAutoScalingGroupsCommand({AutoScalingGroupNames: [ASG_NAME]})],
    read as [resp.AutoScalingGroups?.[0]]. *)
Definition DescribeAutoScalingGroups : M (option Group) :=
  fun w => (Ok (asgGroup w), log_asg DescribeAutoScalingGroupsCommand w).

(** [SetDesiredCapacityCommand({AutoScalingGroupName: ASG_NAME,
    DesiredCapacity: n, HonorCooldown: false})]: the service refuses an
    unknown group and a capacity above the group's maximum. *)
Definition SetDesiredCapacity (n : Z) : M unit :=
  fun w =>
    let w' := log_asg (SetDesiredCapacityCommand n) w in
    match asgGroup w with
    | None => (Throw (ValidationError "AutoScalingGroup name not found"), w')
    | Some g =>
        match MaxSize g with
        | Some mx =>
            if mx <? n
            then (Throw (ValidationError "New SetDesiredCapacity value is above max value"), w')
            else (Ok tt, set_asgGroup (Some (mkGroup (Some n) (MaxSize g))) w')
        | None => (Ok tt, set_asgGroup (Some (mkGroup (Some n) (MaxSize g))) w')
        end
    end.

(** ** HELPERS and ROUTES (lines 246-489) *)

Definition reply (code : Z) (body : list (string * Value)) : Response :=
  mkResponse code (VObj body).

(** The callback of both [filter] calls (lines 260 and 409):
    [(m) => (now() - (m.lastHeartbeat || 0)) <= HEARTBEAT_MAX_AGE_MS].
    [heartbeatFresh] is the comparison at the reading [t] of the clock and
    [healthyNow] the callback itself, which takes a reading per item.
    [lastHeartbeat] is only ever written as [now()], so when present it is a
    number. *)
Definition heartbeatFresh (t : Z) (m : gmap string Value) : bool :=
  match orElse (prop m "lastHeartbeat") (VNum 0) with
  | VNum hb => t - hb <=? HEARTBEAT_MAX_AGE_MS
  | _ => false
  end.

Definition healthyNow (m : gmap string Value) : M bool :=
  let! t := now in
  ret (heartbeatFresh t m).

(** The Scan for [status = "available"] followed by the staleness filter
    (lines 250-260 and 397-409). *)
Definition claimable : M (list (gmap string Value)) :=
  let! items := ScanCommand "status" "available" in
  filterM healthyNow items.

Section Backend.

(** [Number(process.env.TARGET_AVAILABLE || 2)] (line 237). *)
Variable TARGET_AVAILABLE : Z.

(** What the requests that DynamoDB serves between this request's Scan and
    its conditional UpdateItem do to the table; the identity when the request
    runs alone. *)
Variable others : gmap string (gmap string Value) -> gmap string (gmap string Value).

(** Lines 249-263. *)
Definition countAvailableWorkers : M Z :=
  let! healthy := claimable in
  ret (Z.of_nat (length healthy)).

(** Lines 265-333. *)
Definition scaleToMeetBuffer : M Value :=
  let! t := now in
  let! last := (fun w => (Ok (lastScaleOutAt w), w)) in
  if t <? last + SCALE_COOLDOWN_MS then
    ret (VObj [("scaled", VBool false);
               ("reason", VStr "cooldown_active");
               ("retryAfterMs", VNum (SCALE_COOLDOWN_MS - (t - last)))])
  else
    let! availableNow := countAvailableWorkers in
    let missing := TARGET_AVAILABLE - availableNow in
    if missing <=? 0 then
      ret (VObj [("scaled", VBool false);
                 ("reason", VStr "buffer_satisfied");
                 ("availableNow", VNum availableNow);
                 ("targetAvailable", VNum TARGET_AVAILABLE)])
    else
      let! group := DescribeAutoScalingGroups in
      match group with
      | None => throw (mkExn "Error" ("ASG not found: " ++ ASG_NAME))
      | Some group =>
          let desired := nullish (DesiredCapacity group) 0 in
          let max := nullish (MaxSize group) desired in
          let desiredAfter := Z.min (desired + missing) max in
          if desiredAfter =? desired then
            ret (VObj [("scaled", VBool false);
                       ("reason", VStr "ASG at max capacity");
                       ("desired", VNum desired);
                       ("max", VNum max);
                       ("missing", VNum missing);
                       ("availableNow", VNum availableNow);
                       ("targetAvailable", VNum TARGET_AVAILABLE)])
          else
            do! SetDesiredCapacity desiredAfter in
            do! (fun w => (Ok tt, set_lastScaleOutAt t w)) in
            ret (VObj [("scaled", VBool true);
                       ("reason", VStr "scaled_to_meet_buffer");
                       ("availableNow", VNum availableNow);
                       ("targetAvailable", VNum TARGET_AVAILABLE);
                       ("missing", VNum missing);
                       ("desiredBefore", VNum desired);
                       ("desiredAfter", VNum desiredAfter)])
      end.

Definition internal_error : Response :=
  reply 500 [("error", VStr "internal_error")].

(** [POST /register] (lines 338-364). *)
Definition register (body : gmap string Value) : M Response :=
  try_catch
    (let instanceId := prop body "instanceId" in
     let publicIp := prop body "publicIp" in
     let privateIp := prop body "privateIp" in
     if negb (truthy instanceId) then
       ret (reply 400 [("error", VStr "instanceId is required")])
     else
       let! t := now in
       do! PutCommand {[ "instanceId" := instanceId;
                         "publicIp" := orElse publicIp VNull;
                         "privateIp" := orElse privateIp VNull;
                         "status" := VStr "available";
                         "lastHeartbeat" := VNum t;
                         "userId" := VNull;
                         "leaseExpiry" := VNull ]} in
       ret (reply 200 [("ok", VBool true);
                       ("message", VStr "registered");
                       ("instanceId", instanceId)]))
    (fun err => ret internal_error).

(** [POST /heartbeat] (lines 367-388). *)
Definition heartbeat (body : gmap string Value) : M Response :=
  try_catch
    (let instanceId := prop body "instanceId" in
     if negb (truthy instanceId) then
       ret (reply 400 [("error", VStr "instanceId is required")])
     else
       let! t := now in
       do! UpdateCommand instanceId [("lastHeartbeat", VNum t)] None in
       ret (reply 200 [("ok", VBool true)]))
    (fun err => ret internal_error).

(** [POST /claim] (lines 391-463). *)
Definition claim (body : gmap string Value) : M Response :=
  try_catch
    (let userId := prop body "userId" in
     if negb (truthy userId) then
       ret (reply 400 [("error", VStr "userId is required")])
     else
       let! healthy := claimable in
       match healthy with
       | [] =>
           let! scaleInfo := scaleToMeetBuffer in
           ret (reply 202
                  [("ok", VBool false);
                   ("message", VStr "No machines available. Scaling up. Retry in a few seconds.");
                   ("scaleInfo", scaleInfo)])
       | chosen :: _ =>
           let! t := now in
           let expiry := t + LEASE_TTL_MS in
           do! (fun w => (Ok tt, set_table others w)) in
           do! UpdateCommand (prop chosen "instanceId")
                 [("status", VStr "leased"); ("userId", userId); ("leaseExpiry", VNum expiry)]
                 (Some ("status", "available")) in
           ret (reply 200
                  [("ok", VBool true);
                   ("instanceId", prop chosen "instanceId");
                   ("publicIp", prop chosen "publicIp");
                   ("privateIp", prop chosen "privateIp");
                   ("leaseExpiry", VNum expiry);
                   ("connectionHint",
                    if truthy (prop chosen "publicIp")
                    then VStr ("http://" ++ jsString (prop chosen "publicIp") ++ ":8080")
                    else VStr "No public IP. Use SSM in next version.")])
       end)
    (fun err =>
       if includes (name err) "ConditionalCheckFailed" then
         ret (reply 409 [("ok", VBool false);
                         ("message", VStr "Machine already claimed. Retry.")])
       else ret internal_error).

(** [POST /release] (lines 466-489). *)
Definition release (body : gmap string Value) : M Response :=
  try_catch
    (let instanceId := prop body "instanceId" in
     if negb (truthy instanceId) then
       ret (reply 400 [("error", VStr "instanceId is required")])
     else
       do! UpdateCommand instanceId
             [("status", VStr "available"); ("userId", VNull); ("leaseExpiry", VNull)]
             None in
       ret (reply 200 [("ok", VBool true);
                       ("message", VStr "released");
                       ("instanceId", instanceId)]))
    (fun err => ret internal_error).

End Backend.

(** ** Vocabulary of the statements *)

(** Field read on an object literal of a reply. *)
Fixpoint field (fields : list (string * Value)) (a : string) : Value :=
  match fields with
  | [] => VUndefined
  | (a', v) :: rest => if String.eqb a' a then v else field rest a
  end.

Definition get (v : Value) (a : string) : Value :=
  match v with
  | VObj fields => field fields a
  | _ => VUndefined
  end.

(** The world after [n] further readings of the clock. *)
Definition advance (n : nat) (w : World) : World :=
  mkWorld (table w) (asgGroup w) (asgSent w) (lastScaleOutAt w) (clock w) (ticks w + n).

(** What [filter] keeps when its first callback takes reading number [n] of
    the clock [clk]. *)
Fixpoint keepFresh (clk : nat -> Z) (n : nat) (l : list (gmap string Value))
    : list (gmap string Value) :=
  match l with
  | [] => []
  | m :: rest =>
      if heartbeatFresh (clk n) m
      then m :: keepFresh clk (S n) rest
      else keepFresh clk (S n) rest
  end.

(** The items a Scan for [status = "available"] returns. *)
Definition scanned (tb : gmap string (gmap string Value)) : list (gmap string Value) :=
  filter (fun m => Is_true (attrIs "status" "available" m)) (tableItems tb).

(** The worker stored under [k] has [status = "available"]. *)
Definition isAvailable (tb : gmap string (gmap string Value)) (k : string) : Prop :=
  exists attrs, tb !! k = Some attrs /\ attrs !! "status" = Some (VStr "available").

(** The attributes [register] stores at the clock reading [t]. *)
Definition registered (body : gmap string Value) (t : Z) : gmap string Value :=
  {[ "publicIp" := orElse (prop body "publicIp") VNull;
     "privateIp" := orElse (prop body "privateIp") VNull;
     "status" := VStr "available";
     "lastHeartbeat" := VNum t;
     "userId" := VNull;
     "leaseExpiry" := VNull ]}.

(** The reply of a successful claim of the scanned item [chosen] with lease
    expiry [expiry] (lines 442-451). *)
Definition claimed (chosen : gmap string Value) (expiry : Z) : Response :=
  reply 200
    [("ok", VBool true);
     ("instanceId", prop chosen "instanceId");
     ("publicIp", prop chosen "publicIp");
     ("privateIp", prop chosen "privateIp");
     ("leaseExpiry", VNum expiry);
     ("connectionHint",
      if truthy (prop chosen "publicIp")
      then VStr ("http://" ++ jsString (prop chosen "publicIp") ++ ":8080")
      else VStr "No public IP. Use SSM in next version.")].

Definition conflict : Response :=
  reply 409 [("ok", VBool false); ("message", VStr "Machine already claimed. Retry.")].

(** [availableNow] as a call to [scaleToMeetBuffer] started in [w] counts it
    (the call's first clock reading is [t], the filter takes the next ones),
    and the world once the count is done. *)
Definition availableNowAt (w : World) : Z :=
  Z.of_nat (length (keepFresh (clock w) (S (ticks w)) (scanned (table w)))).

Definition afterCount (w : World) : World :=
  advance (length (scanned (table w))) (tick w).

(** The four replies of [scaleToMeetBuffer]. *)
Definition cooldown_active (retryAfterMs : Z) : Value :=
  VObj [("scaled", VBool false); ("reason", VStr "cooldown_active");
        ("retryAfterMs", VNum retryAfterMs)].

Definition buffer_satisfied (availableNow target : Z) : Value :=
  VObj [("scaled", VBool false); ("reason", VStr "buffer_satisfied");
        ("availableNow", VNum availableNow); ("targetAvailable", VNum target)].

Definition at_max_capacity (desired max missing availableNow target : Z) : Value :=
  VObj [("scaled", VBool false); ("reason", VStr "ASG at max capacity");
        ("desired", VNum desired); ("max", VNum max); ("missing", VNum missing);
        ("availableNow", VNum availableNow); ("targetAvailable", VNum target)].

Definition scaled_to_meet_buffer (availableNow target missing desired desiredAfter : Z)
    : Value :=
  VObj [("scaled", VBool true); ("reason", VStr "scaled_to_meet_buffer");
        ("availableNow", VNum availableNow); ("targetAvailable", VNum target);
        ("missing", VNum missing); ("desiredBefore", VNum desired);
        ("desiredAfter", VNum desiredAfter)].


(** Every worker of the table with [status = "available"] has [userId] and
    [leaseExpiry] stored as [null]. *)
Definition leaseClear (tb : gmap string (gmap string Value)) : Prop :=
  forall k attrs,
    tb !! k = Some attrs -> attrs !! "status" = Some (VStr "available") ->
    attrs !! "userId" = Some VNull /\ attrs !! "leaseExpiry" = Some VNull.

(** ** Sample requests and worlds *)

Definition sampleClock (n : nat) : Z := 1700000000000 + Z.of_nat n.

(** An empty table, a group at 3 of 5 instances, no scale-out so far. *)
Definition freshWorld : World :=
  mkWorld ∅ (Some (mkGroup (Some 3) (Some 5))) [] 0 sampleClock 0.

Definition workerBody : gmap string Value :=
  {[ "instanceId" := VStr "i-0abc"; "publicIp" := VStr "13.0.0.7";
     "privateIp" := VStr "10.0.0.7" ]}.

Definition idBody : gmap string Value := {[ "instanceId" := VStr "i-0abc" ]}.

Definition userBody : gmap string Value := {[ "userId" := VStr "u1" ]}.

(** The worker of [workerBody] under a lease held by [u1]. *)
Definition leasedAttrs : gmap string Value :=
  {[ "publicIp" := VStr "13.0.0.7"; "privateIp" := VStr "10.0.0.7";
     "status" := VStr "leased"; "lastHeartbeat" := VNum 1700000000000;
     "userId" := VStr "u1"; "leaseExpiry" := VNum 1700000600002 ]}.

Definition leasedWorld : World :=
  mkWorld {[ "i-0abc" := leasedAttrs ]} (Some (mkGroup (Some 3) (Some 5))) []
          0 sampleClock 3.

Definition rivalBody : gmap string Value := {[ "userId" := VStr "u2" ]}.

(** The table once [workerBody]'s worker has been registered at reading 0. *)
Definition registeredWorld : World :=
  mkWorld {[ "i-0abc" := registered workerBody 1700000000000 ]}
          (Some (mkGroup (Some 3) (Some 5))) [] 0 sampleClock 1.

(** A string of 2049 bytes, one more than a partition key may have. *)
Definition longId : string := String.concat "" (repeat "x" 2049).

Definition longIdBody : gmap string Value := {[ "instanceId" := VStr longId ]}.

(** Requests whose [instanceId] is the number 5. *)
Definition numericIdBody : gmap string Value := {[ "instanceId" := VNum 5 ]}.



(** ** The first revision of the file (lines 1-216)

    Its [/register], [/heartbeat] and [/release] are the ones above, word for
    word; it differs in the scaling helper and in the [/claim] that calls it. *)

Module Rev1.

(** Lines 27-51. *)
Definition scaleOutByOneIfNeeded : M Value :=
  let! group := DescribeAutoScalingGroups in
  match group with
  | None => throw (mkExn "Error" ("ASG not found: " ++ ASG_NAME))
  | Some group =>
      let desired := nullish (DesiredCapacity group) 0 in
      let max := nullish (MaxSize group) desired in
      if desired >=? max then
        ret (VObj [("scaled", VBool false);
                   ("reason", VStr "ASG at max capacity");
                   ("desired", VNum desired);
                   ("max", VNum max)])
      else
        do! SetDesiredCapacity (desired + 1) in
        ret (VObj [("scaled", VBool true);
                   ("desiredBefore", VNum desired);
                   ("desiredAfter", VNum (desired + 1))])
  end.

(** [POST /claim] (lines 109-182); [others] as in the second revision. *)
Definition claim
    (others : gmap string (gmap string Value) -> gmap string (gmap string Value))
    (body : gmap string Value) : M Response :=
  try_catch
    (let userId := prop body "userId" in
     if negb (truthy userId) then
       ret (reply 400 [("error", VStr "userId is required")])
     else
       let! healthy := claimable in
       match healthy with
       | [] =>
           let! scaleInfo := scaleOutByOneIfNeeded in
           ret (reply 202
                  [("ok", VBool false);
                   ("message", VStr "No machines available. Scaling up. Retry in a few seconds.");
                   ("scaleInfo", scaleInfo)])
       | chosen :: _ =>
           let! t := now in
           let expiry := t + LEASE_TTL_MS in
           do! (fun w => (Ok tt, set_table others w)) in
           do! UpdateCommand (prop chosen "instanceId")
                 [("status", VStr "leased"); ("userId", userId); ("leaseExpiry", VNum expiry)]
                 (Some ("status", "available")) in
           ret (reply 200
                  [("ok", VBool true);
                   ("instanceId", prop chosen "instanceId");
                   ("publicIp", prop chosen "publicIp");
                   ("privateIp", prop chosen "privateIp");
                   ("leaseExpiry", VNum expiry);
                   ("connectionHint",
                    if truthy (prop chosen "publicIp")
                    then VStr ("http://" ++ jsString (prop chosen "publicIp") ++ ":8080")
                    else VStr "No public IP. Use SSM in next version.")])
       end)
    (fun err =>
       if includes (name err) "ConditionalCheckFailed" then
         ret (reply 409 [("ok", VBool false);
                         ("message", VStr "Machine already claimed. Retry.")])
       else ret internal_error).

End Rev1.

(** ** The routes, served one request at a time *)

(** [GET /health] (lines 492-494). *)
Definition health : M Response :=
  ret (reply 200 [("ok", VBool true); ("service", VStr "machine-claimer-backend")]).

(** The five routes the file mounts on [app]. *)
Inductive Route : Type :=
  | PostRegister
  | PostHeartbeat
  | PostClaim
  | PostRelease
  | GetHealth.

(** One request handled from start to end with no other request in between
    (so [others] is the identity). *)
Definition serve (T : Z) (route : Route) (body : gmap string Value) : M Response :=
  match route with
  | PostRegister => register body
  | PostHeartbeat => heartbeat body
  | PostClaim => claim T (fun tb => tb) body
  | PostRelease => release body
  | GetHealth => health
  end.

(** The world after a sequence of requests. *)
Fixpoint serveAll (T : Z) (reqs : list (Route * gmap string Value)) (w : World) : World :=
  match reqs with
  | [] => w
  | (route, body) :: rest => serveAll T rest (serve T route body w).2
  end.

(** The lease fields of a record agree with its status: an available worker
    has [userId] and [leaseExpiry] stored as [null], a leased one has a truthy
    [userId] and a number as [leaseExpiry], and a record with no status (one
    made by a heartbeat for an unknown id) has neither field. *)
Definition leaseConsistent (attrs : gmap string Value) : Prop :=
  (attrs !! "status" = Some (VStr "available") /\
   attrs !! "userId" = Some VNull /\ attrs !! "leaseExpiry" = Some VNull)
  \/ (attrs !! "status" = Some (VStr "leased") /\
      exists u e, attrs !! "userId" = Some u /\ truthy u = true /\
                  attrs !! "leaseExpiry" = Some (VNum e))
  \/ (attrs !! "status" = None /\
      attrs !! "userId" = None /\ attrs !! "leaseExpiry" = None).

(** The time stamps of a record are readings the clock of [w] has already
    given: [lastHeartbeat], when present, is such a reading, and
    [leaseExpiry], when not [null], is such a reading plus the lease TTL. *)
Definition timestamped (w : World) (attrs : gmap string Value) : Prop :=
  (forall v, attrs !! "lastHeartbeat" = Some v ->
     exists i, (i < ticks w)%nat /\ v = VNum (clock w i)) /\
  (forall v, attrs !! "leaseExpiry" = Some v ->
     v = VNull \/ exists i, (i < ticks w)%nat /\ v = VNum (clock w i + LEASE_TTL_MS)).

Definition allRecords (P : gmap string Value -> Prop)
    (tb : gmap string (gmap string Value)) : Prop :=
  forall k attrs, tb !! k = Some attrs -> P attrs.

(** ** The worker agent (src/unnamed/part_001)

    The agent talks to the instance metadata service and to the backend over
    HTTP, sleeps and logs.  A run is determined by the replies the network
    gives, in order: [Resolved] when a response arrives (whatever its HTTP
    status), [Rejected] when the request fails.  The embedding threads the
    replies still to come and the actions done so far; a run over a finite
    list of replies stops, [Awaiting], at the first request the list has no
    reply for. *)

Module Worker.

Inductive NetResult : Type :=
  | Resolved (status : Z) (data : string)
  | Rejected (message : string).

Inductive Action : Type :=
  | HttpGet (url : string)
  | HttpPost (url : string) (body : gmap string Value)
  | Sleep (ms : Z)
  | ConsoleLog (label text : string)
  | ConsoleError (label text : string).

Record Run : Type := mkRun { inbox : list NetResult; trace : list Action }.

Inductive Step (A : Type) : Type :=
  | Done (a : A)
  | Raised (message : string)
  | Awaiting
  | OutOfFuel.
Arguments Done {A} a.
Arguments Raised {A} message.
Arguments Awaiting {A}.
Arguments OutOfFuel {A}.

Definition Agent (A : Type) : Type := Run -> Step A * Run.

Definition ret {A} (a : A) : Agent A := fun r => (Done a, r).

Definition bind {A B} (m : Agent A) (k : A -> Agent B) : Agent B :=
  fun r =>
    match m r with
    | (Done a, r') => k a r'
    | (Raised e, r') => (Raised e, r')
    | (Awaiting, r') => (Awaiting, r')
    | (OutOfFuel, r') => (OutOfFuel, r')
    end.

(** [try { body } catch (e) { handler(e.message) }]. *)
Definition try_catch {A} (body : Agent A) (handler : string -> Agent A) : Agent A :=
  fun r =>
    match body r with
    | (Raised e, r') => handler e r'
    | other => other
    end.

Notation "'let*' x ':=' m 'in' k" := (bind m (fun x => k))
  (at level 10, x name, m at level 100, k at level 200).
Notation "'do*' m 'in' k" := (bind m (fun _ => k))
  (at level 10, m at level 100, k at level 200).

Definition emit (a : Action) : Agent unit :=
  fun r => (Done tt, mkRun (inbox r) (trace r ++ [a])).

(** A request is sent, then its reply is awaited: the promise resolves with
    [{status, data}] or rejects. *)
Definition request (a : Action) : Agent (Z * string) :=
  fun r =>
    let sent := (trace r ++ [a])%list in
    match inbox r with
    | [] => (Awaiting, mkRun [] sent)
    | Resolved status data :: rest => (Done (status, data), mkRun rest sent)
    | Rejected message :: rest => (Raised message, mkRun rest sent)
    end.

(** Lines 11-47. *)
Definition sleep (ms : Z) : Agent unit := emit (Sleep ms).
Definition httpGet (url : string) : Agent (Z * string) := request (HttpGet url).
Definition httpPost (url : string) (body : gmap string Value) : Agent (Z * string) :=
  request (HttpPost url body).

(** Running [m] only ever adds actions to the trace. *)
Definition extends {A} (m : Agent A) : Prop :=
  forall r, exists added, trace (m r).2 = (trace r ++ added)%list.

Section Agent.

(** [process.env.BACKEND_URL] (line 5; the agent exits at once when it is not
    set) and [String.prototype.trim]. *)
Variable BACKEND_URL : string.
Variable trim : string -> string.

(** Lines 50-54. *)
Definition getMetadata (path : string) : Agent string :=
  let url := "http://169.254.169.254/latest/meta-data/" ++ path in
  let* res := httpGet url in
  ret (trim res.2).

(** The inner [while (true)] of [main] (lines 75-78). *)
Fixpoint heartbeatLoop (fuel : nat) (instanceId : string) : Agent unit :=
  match fuel with
  | O => fun r => (OutOfFuel, r)
  | S fuel' =>
      do* httpPost (BACKEND_URL ++ "/heartbeat") {[ "instanceId" := VStr instanceId ]} in
      do* sleep 15000 in
      heartbeatLoop fuel' instanceId
  end.

(** One turn of the outer [while (true)] of [main] (lines 58-82). *)
Definition attempt (fuel : nat) : Agent unit :=
  try_catch
    (let* instanceId := getMetadata "instance-id" in
     let* privateIp := getMetadata "local-ipv4" in
     let* publicIp :=
       try_catch (let* ip := getMetadata "public-ipv4" in ret (VStr ip))
                 (fun _ => ret VNull) in
     do* httpPost (BACKEND_URL ++ "/register")
           {[ "instanceId" := VStr instanceId;
              "privateIp" := VStr privateIp;
              "publicIp" := publicIp ]} in
     do* emit (ConsoleLog "Registered:" instanceId) in
     heartbeatLoop fuel instanceId)
    (fun message =>
       do* emit (ConsoleError "Agent error:" message) in
       sleep 5000).

Fixpoint mainLoop (fuel : nat) : Agent unit :=
  match fuel with
  | O => fun r => (OutOfFuel, r)
  | S fuel' =>
      do* attempt fuel' in
      mainLoop fuel'
  end.

(** [main()] (lines 56-86) against the replies [net]: every turn of either
    loop uses up a reply, so [length net] turns and one more are enough. *)
Definition main (net : list NetResult) : Step unit * Run :=
  mainLoop (S (length net)) (mkRun net []).

End Agent.

End Worker.

(** The agent's protocol (the notes: it reads EC2 metadata, calls
    [/register] on boot and sends [/heartbeat] every 15 s), as a machine
    driven by the replies.  A state says which request is in flight and what
    the agent has learnt from the replies so far; [react] gives, for the
    reply to that request, the actions the agent does next, the last of them
    its next request, and the state it is then in; [script] is the run of the
    machine over a list of replies. *)
Inductive Waiting : Type :=
  | ForInstanceId
  | ForPrivateIp (instanceId : string)
  | ForPublicIp (instanceId privateIp : string)
  | ForRegister (instanceId : string)
  | ForHeartbeat (instanceId : string).

Definition metadataGet (path : string) : Worker.Action :=
  Worker.HttpGet ("http://169.254.169.254/latest/meta-data/" ++ path).

Section Protocol.

Variable BACKEND_URL : string.
Variable trim : string -> string.

Definition registerPost (instanceId privateIp : string) (publicIp : Value) : Worker.Action :=
  Worker.HttpPost (BACKEND_URL ++ "/register")
    {[ "instanceId" := VStr instanceId; "privateIp" := VStr privateIp;
       "publicIp" := publicIp ]}.

Definition heartbeatPost (instanceId : string) : Worker.Action :=
  Worker.HttpPost (BACKEND_URL ++ "/heartbeat") {[ "instanceId" := VStr instanceId ]}.

Definition react (st : Waiting) (reply : Worker.NetResult)
    : list Worker.Action * Waiting :=
  match st, reply with
  | ForInstanceId, Worker.Resolved _ data =>
      ([metadataGet "local-ipv4"], ForPrivateIp (trim data))
  | ForPrivateIp id, Worker.Resolved _ data =>
      ([metadataGet "public-ipv4"], ForPublicIp id (trim data))
  | ForPublicIp id privateIp, Worker.Resolved _ data =>
      ([registerPost id privateIp (VStr (trim data))], ForRegister id)
  | ForPublicIp id privateIp, Worker.Rejected _ =>
      ([registerPost id privateIp VNull], ForRegister id)
  | ForRegister id, Worker.Resolved _ _ =>
      ([Worker.ConsoleLog "Registered:" id; heartbeatPost id], ForHeartbeat id)
  | ForHeartbeat id, Worker.Resolved _ _ =>
      ([Worker.Sleep 15000; heartbeatPost id], ForHeartbeat id)
  | _, Worker.Rejected message =>
      ([Worker.ConsoleError "Agent error:" message; Worker.Sleep 5000;
        metadataGet "instance-id"], ForInstanceId)
  end.

Fixpoint script (st : Waiting) (net : list Worker.NetResult) : list Worker.Action :=
  match net with
  | [] => []
  | reply :: rest =>
      let (actions, st') := react st reply in
      (actions ++ script st' rest)%list
  end.

End Protocol.

(** ** Basic facts *)

(** Equality of two attribute maps built by inserts at known names: compare
    them name by name. *)
Ltac attrs_eq :=
  apply map_eq; intros ?;
  rewrite ?lookup_insert, ?lookup_singleton, ?lookup_empty;
  repeat case_decide; first [reflexivity | congruence].

Lemma truthy_VStr (s : string) : s <> "" -> truthy (VStr s) = true.
Proof.
  intros Hs. simpl. destruct (String.eqb_spec s ""); [contradiction | reflexivity].
Qed.

Lemma orElse_num (t : Z) : orElse (VNum t) (VNum 0) = VNum t.
Proof. unfold orElse; simpl. destruct (Z.eqb_spec t 0); [subst |]; reflexivity. Qed.

Lemma world_eta (w : World) :
  mkWorld (table w) (asgGroup w) (asgSent w) (lastScaleOutAt w) (clock w) (ticks w) = w.
Proof. destruct w; reflexivity. Qed.

Lemma advance_0 (w : World) : advance 0 w = w.
Proof. unfold advance. rewrite Nat.add_0_r. apply world_eta. Qed.

Lemma advance_tick (n : nat) (w : World) : advance n (tick w) = advance (S n) w.
Proof. unfold advance, tick; simpl. f_equal. lia. Qed.

Lemma attrIs_true (a s : string) (attrs : gmap string Value) :
  attrIs a s attrs = true <-> attrs !! a = Some (VStr s).
Proof.
  unfold attrIs. destruct (attrs !! a) as [[| | | |s'|]|]; try (split; [discriminate | congruence]).
  destruct (String.eqb_spec s' s); split; congruence.
Qed.

Lemma attrIs_withKey (k : string) (attrs : gmap string Value) :
  attrIs "status" "available" (withKey k attrs) = attrIs "status" "available" attrs.
Proof. unfold attrIs, withKey. rewrite lookup_insert_ne; [reflexivity | discriminate]. Qed.


Lemma prop_withKey_instanceId (k : string) (attrs : gmap string Value) :
  prop (withKey k attrs) "instanceId" = VStr k.
Proof. unfold prop, withKey. rewrite lookup_insert_eq. reflexivity. Qed.

Lemma prop_withKey_ne (k a : string) (attrs : gmap string Value) :
  a <> "instanceId" -> prop (withKey k attrs) a = prop attrs a.
Proof. intros Ha. unfold prop, withKey. rewrite lookup_insert_ne; [reflexivity | congruence]. Qed.

Lemma withKey_inj (k1 k2 : string) (a1 a2 : gmap string Value) :
  withKey k1 a1 = withKey k2 a2 -> k1 = k2.
Proof.
  intros H. apply (f_equal (fun m => m !! "instanceId")) in H.
  unfold withKey in H. rewrite !lookup_insert_eq in H. congruence.
Qed.

(** ** The Scan and the staleness filter *)

Lemma elem_of_tableItems (tb : gmap string (gmap string Value)) (m : gmap string Value) :
  m ∈ tableItems tb <-> exists k attrs, tb !! k = Some attrs /\ m = withKey k attrs.
Proof.
  unfold tableItems. rewrite list_elem_of_fmap. split.
  - intros ([k attrs] & -> & Hin). apply elem_of_map_to_list in Hin. eauto.
  - intros (k & attrs & Hk & ->). exists (k, attrs). split; [reflexivity |].
    by apply elem_of_map_to_list.
Qed.

Lemma NoDup_tableItems (tb : gmap string (gmap string Value)) : NoDup (tableItems tb).
Proof.
  unfold tableItems. apply NoDup_fmap_2_strong; [| apply NoDup_map_to_list].
  intros [k1 a1] [k2 a2] H1 H2 Heq; simpl in Heq.
  apply elem_of_map_to_list in H1, H2.
  pose proof (withKey_inj _ _ _ _ Heq) as ->. congruence.
Qed.

Lemma elem_of_scanned (tb : gmap string (gmap string Value)) (m : gmap string Value) :
  m ∈ scanned tb <->
  exists k attrs, tb !! k = Some attrs /\ attrs !! "status" = Some (VStr "available") /\
                  m = withKey k attrs.
Proof.
  unfold scanned. rewrite list_elem_of_filter, elem_of_tableItems. split.
  - intros (Hs & k & attrs & Hk & ->). exists k, attrs. repeat split; auto.
    apply Is_true_true in Hs. rewrite attrIs_withKey in Hs. by apply attrIs_true.
  - intros (k & attrs & Hk & Hs & ->). split; [| eauto].
    apply Is_true_true. rewrite attrIs_withKey. by apply attrIs_true.
Qed.

Lemma NoDup_scanned (tb : gmap string (gmap string Value)) : NoDup (scanned tb).
Proof. unfold scanned. apply NoDup_filter, NoDup_tableItems. Qed.

Lemma filterM_healthyNow (l : list (gmap string Value)) (w : World) :
  filterM healthyNow l w = (Ok (keepFresh (clock w) (ticks w) l), advance (length l) w).
Proof.
  revert w. induction l as [| m rest IH]; intros w.
  - simpl. unfold ret. by rewrite advance_0.
  - simpl. unfold bind at 1. unfold healthyNow at 1. unfold bind at 1.
    unfold now at 1. unfold ret at 1. unfold bind. rewrite IH. simpl.
    unfold ret. rewrite advance_tick. reflexivity.
Qed.

Lemma claimable_eq (w : World) :
  claimable w =
  (Ok (keepFresh (clock w) (ticks w) (scanned (table w))),
   advance (length (scanned (table w))) w).
Proof. unfold claimable, bind, ScanCommand. apply filterM_healthyNow. Qed.

Lemma elem_of_keepFresh (clk : nat -> Z) (n : nat) (l : list (gmap string Value))
    (m : gmap string Value) :
  m ∈ keepFresh clk n l <->
  exists i, l !! i = Some m /\ heartbeatFresh (clk (n + i)%nat) m = true.
Proof.
  revert n. induction l as [| x rest IH]; intros n; simpl.
  - split; [intros H; inversion H | intros (i & H & _); discriminate].
  - destruct (heartbeatFresh (clk n) x) eqn:Hx.
    + rewrite elem_of_cons, IH. split.
      * intros [-> | (i & Hi & Hf)].
        -- exists 0%nat. rewrite Nat.add_0_r. auto.
        -- exists (S i). rewrite Nat.add_succ_r. auto.
      * intros ([| i] & Hi & Hf); simpl in Hi.
        -- left. congruence.
        -- right. exists i. rewrite Nat.add_succ_r in Hf. auto.
    + rewrite IH. split.
      * intros (i & Hi & Hf). exists (S i). rewrite Nat.add_succ_r. auto.
      * intros ([| i] & Hi & Hf); simpl in Hi.
        -- injection Hi as ->. rewrite Nat.add_0_r in Hf. congruence.
        -- exists i. rewrite Nat.add_succ_r in Hf. auto.
Qed.

Lemma keepFresh_sublist (clk : nat -> Z) (n : nat) (l : list (gmap string Value))
    (m : gmap string Value) :
  m ∈ keepFresh clk n l -> m ∈ l.
Proof.
  rewrite elem_of_keepFresh. intros (i & Hi & _). apply list_elem_of_lookup. eauto.
Qed.

(** ** What the DynamoDB client accepts *)

Lemma keyOk_intro (k : string) :
  k <> "" -> (String.length k <= 2048)%nat -> keyOk k = true.
Proof.
  intros Hne Hlen. unfold keyOk. apply andb_true_intro. split.
  - destruct (String.eqb_spec k ""); [contradiction | reflexivity].
  - by apply Nat.leb_le.
Qed.

Lemma keyAccepted_keyOk (tb : gmap string (gmap string Value)) (k : string) :
  keyOk k = true -> keyAccepted tb k = true.
Proof. intros Hk. unfold keyAccepted. destruct (tb !! k); [reflexivity | exact Hk]. Qed.

Lemma keyAccepted_present (tb : gmap string (gmap string Value)) (k : string)
    (attrs : gmap string Value) :
  tb !! k = Some attrs -> keyAccepted tb k = true.
Proof. intros Hk. unfold keyAccepted. by rewrite Hk. Qed.

Lemma keyAccepted_absent (tb : gmap string (gmap string Value)) (k : string) :
  tb !! k = None -> keyAccepted tb k = keyOk k.
Proof. intros Hk. unfold keyAccepted. by rewrite Hk. Qed.


(** The number a handler has just read from the clock, and that number plus
    the lease TTL, are marshalled. *)
Lemma marshals_reading (w : World)
    (f : gmap string (gmap string Value) -> gmap string (gmap string Value)) :
  marshals (set_table f (tick w)) (VNum (clock w (ticks w))) = true.
Proof. unfold marshals, justRead; simpl. by rewrite Z.eqb_refl, !orb_true_r. Qed.

Lemma marshals_expiry (w : World)
    (f : gmap string (gmap string Value) -> gmap string (gmap string Value)) :
  marshals (set_table f (tick w)) (VNum (clock w (ticks w) + LEASE_TTL_MS)) = true.
Proof. unfold marshals, justRead; simpl. by rewrite Z.eqb_refl, !orb_true_r. Qed.

Lemma marshals_now (w : World) : marshals (tick w) (VNum (clock w (ticks w))) = true.
Proof. unfold marshals, justRead; simpl. by rewrite Z.eqb_refl, !orb_true_r. Qed.


Lemma UpdateCommand_served (k : string) (sets : list (string * Value))
    (cond : option (string * string)) (w : World) :
  forallb (fun av => marshals w av.2) sets = true ->
  keyAccepted (table w) k = true ->
  UpdateCommand (VStr k) sets cond w =
  (let holds :=
     match cond with
     | None => true
     | Some (a, s) =>
         match table w !! k with
         | Some attrs => attrIs a s attrs
         | None => false
         end
     end in
   if holds
   then (Ok tt, set_table (<[k := applySet (default ∅ (table w !! k)) sets]>) w)
   else (Throw ConditionalCheckFailedException, w)).
Proof.
  intros Hall Hacc. unfold UpdateCommand. cbn [forallb snd]. rewrite Hall.
  change (marshals w (VStr k)) with true. cbn [andb negb ddbKey].
  rewrite Hacc. reflexivity.
Qed.

Ltac refused := left; eexists; reflexivity.

(** A write either is refused, by the client or by the service, and leaves
    the world as it was, or is applied under a string key. *)
Lemma PutCommand_cases (Item : gmap string Value) (w : World) :
  (exists e, PutCommand Item w = (Throw e, w)) \/
  (exists k, prop Item "instanceId" = VStr k /\ keyAccepted (table w) k = true /\
             PutCommand Item w = (Ok tt, set_table (<[k := delete "instanceId" Item]>) w)).
Proof.
  unfold PutCommand. destruct (forallb _ _); cbn [negb]; [| refused].
  destruct (prop Item "instanceId") as [| | | |k|] eqn:Hkey; cbn [ddbKey]; try refused.
  destruct (keyAccepted (table w) k) eqn:Hacc; [| refused].
  right. exists k. auto.
Qed.

Lemma UpdateCommand_cases (Key : Value) (sets : list (string * Value))
    (cond : option (string * string)) (w : World) :
  (exists e, UpdateCommand Key sets cond w = (Throw e, w)) \/
  (exists k, Key = VStr k /\ keyAccepted (table w) k = true /\
             UpdateCommand Key sets cond w =
             (Ok tt, set_table (<[k := applySet (default ∅ (table w !! k)) sets]>) w)).
Proof.
  unfold UpdateCommand. destruct (forallb _ _); cbn [negb]; [| refused].
  destruct Key as [| | | |k|]; cbn [ddbKey]; try refused.
  destruct (keyAccepted (table w) k) eqn:Hacc; cbn [negb]; [| refused].
  destruct cond as [[a s] |]; [| right; exists k; auto].
  destruct (table w !! k) as [attrs |] eqn:Hk; [| refused].
  destruct (attrIs a s attrs); [| refused].
  right. exists k. split; [reflexivity |]. split; [exact Hacc |]. by rewrite Hk.
Qed.

(** ** Evaluation of the handlers *)

Lemma release_eval (body : gmap string Value) (w : World) (id : string) :
  prop body "instanceId" = VStr id -> id <> "" ->
  keyAccepted (table w) id = true ->
  release body w =
  (Ok (reply 200 [("ok", VBool true); ("message", VStr "released"); ("instanceId", VStr id)]),
   set_table (<[id := applySet (default ∅ (table w !! id))
                         [("status", VStr "available"); ("userId", VNull);
                          ("leaseExpiry", VNull)]]>) w).
Proof.
  intros Hid Hne Hacc. unfold release, try_catch, bind. rewrite Hid, (truthy_VStr _ Hne).
  cbn [negb]. rewrite UpdateCommand_served; [reflexivity | reflexivity | exact Hacc].
Qed.

Lemma heartbeat_eval (body : gmap string Value) (w : World) (id : string) :
  prop body "instanceId" = VStr id -> id <> "" ->
  keyAccepted (table w) id = true ->
  heartbeat body w =
  (Ok (reply 200 [("ok", VBool true)]),
   set_table (<[id := <["lastHeartbeat" := VNum (clock w (ticks w))]>
                         (default ∅ (table w !! id))]>) (tick w)).
Proof.
  intros Hid Hne Hacc. unfold heartbeat, try_catch, bind. rewrite Hid, (truthy_VStr _ Hne).
  cbn [negb]. unfold now. rewrite UpdateCommand_served; [reflexivity | | exact Hacc].
  cbn [forallb snd]. rewrite marshals_now. reflexivity.
Qed.


(** ** Available workers carry no lease *)

Lemma leaseClear_empty : leaseClear ∅.
Proof. intros k attrs Hk. rewrite lookup_empty in Hk. discriminate. Qed.

Lemma leaseClear_insert (tb : gmap string (gmap string Value)) (id : string)
    (attrs : gmap string Value) :
  leaseClear tb ->
  (attrs !! "status" = Some (VStr "available") ->
   attrs !! "userId" = Some VNull /\ attrs !! "leaseExpiry" = Some VNull) ->
  leaseClear (<[id := attrs]> tb).
Proof.
  intros Htb Hattrs k a Hk Hs. rewrite lookup_insert in Hk. case_decide.
  - injection Hk as <-. auto.
  - eauto.
Qed.

Ltac put_cases k :=
  match goal with
  | |- context [PutCommand ?I ?w'] =>
      destruct (PutCommand_cases I w') as [[? ->] | (k & _ & ? & ->)]
  end.

Ltac update_cases k :=
  match goal with
  | |- context [UpdateCommand ?K ?s ?c ?w'] =>
      destruct (UpdateCommand_cases K s c w') as [[? ->] | (k & _ & ? & ->)]
  end.

Lemma register_leaseClear (body : gmap string Value) (w : World) :
  leaseClear (table w) -> leaseClear (table (register body w).2).
Proof.
  intros Hinv. unfold register, try_catch.
  destruct (truthy (prop body "instanceId")); [| exact Hinv]. cbn [negb].
  unfold bind, now, ret. put_cases k; [exact Hinv |].
  cbn [fst snd set_table table].
  apply leaseClear_insert; [exact Hinv |].
  intros _. split; reflexivity.
Qed.

Lemma heartbeat_leaseClear (body : gmap string Value) (w : World) :
  leaseClear (table w) -> leaseClear (table (heartbeat body w).2).
Proof.
  intros Hinv. unfold heartbeat, try_catch.
  destruct (truthy (prop body "instanceId")); [| exact Hinv]. cbn [negb].
  unfold bind, now, ret. update_cases k; [exact Hinv |].
  cbn [fst snd set_table table tick applySet foldl].
  apply leaseClear_insert; [exact Hinv |].
  rewrite !lookup_insert_ne by discriminate.
  destruct (table w !! k) as [attrs |] eqn:Hk; simpl.
  - apply (Hinv k attrs Hk).
  - rewrite lookup_empty. discriminate.
Qed.

Lemma release_leaseClear (body : gmap string Value) (w : World) :
  leaseClear (table w) -> leaseClear (table (release body w).2).
Proof.
  intros Hinv. unfold release, try_catch.
  destruct (truthy (prop body "instanceId")); [| exact Hinv]. cbn [negb].
  unfold bind, ret. update_cases k; [exact Hinv |].
  cbn [fst snd set_table table applySet foldl].
  apply leaseClear_insert; [exact Hinv |].
  intros _. split.
  - rewrite lookup_insert_ne by discriminate. apply lookup_insert_eq.
  - apply lookup_insert_eq.
Qed.

(** ** Release *)

(** C7. For an existing worker record, [release] answers ok and sets
    [status = "available"], [userId = null], [leaseExpiry = null] whoever holds
    the lease (the request carries no user and the update has no condition);
    the key and every other attribute ([publicIp], [privateIp],
    [lastHeartbeat]) and every other record are unchanged.  Releasing again
    changes nothing, and releasing a worker that is already available keeps its
    status and addresses, the whole table being unchanged when its lease
    fields are already null. *)
Theorem release_existing (body : gmap string Value) (w : World) (id : string)
    (attrs : gmap string Value) :
  prop body "instanceId" = VStr id -> id <> "" ->
  table w !! id = Some attrs ->
  let attrs' :=
    <["leaseExpiry" := VNull]> (<["userId" := VNull]> (<["status" := VStr "available"]> attrs)) in
  let r := release body w in
  r.1 = Ok (reply 200 [("ok", VBool true); ("message", VStr "released");
                       ("instanceId", VStr id)]) /\
  table r.2 = <[id := attrs']> (table w) /\
  getItem (table r.2) id = Some (withKey id attrs') /\
  attrs' !! "status" = Some (VStr "available") /\
  attrs' !! "userId" = Some VNull /\
  attrs' !! "leaseExpiry" = Some VNull /\
  (forall a, a <> "status" -> a <> "userId" -> a <> "leaseExpiry" ->
             attrs' !! a = attrs !! a) /\
  (forall k, k <> id -> table r.2 !! k = table w !! k) /\
  table (release body r.2).2 = table r.2 /\
  (attrs !! "status" = Some (VStr "available") ->
   attrs' !! "status" = attrs !! "status" /\
   attrs' !! "publicIp" = attrs !! "publicIp" /\
   attrs' !! "privateIp" = attrs !! "privateIp" /\
   (attrs !! "userId" = Some VNull -> attrs !! "leaseExpiry" = Some VNull ->
    table r.2 = table w)).
Proof.
  intros Hid Hne Hk attrs' r.
  assert (Hr : r = (Ok (reply 200 [("ok", VBool true); ("message", VStr "released");
                                   ("instanceId", VStr id)]),
                    set_table (<[id := attrs']>) w)).
  { subst r. rewrite (release_eval _ _ _ Hid Hne (keyAccepted_present _ _ _ Hk)), Hk.
    reflexivity. }
  rewrite Hr; simpl.
  assert (Hst : attrs' !! "status" = Some (VStr "available")).
  { subst attrs'. rewrite !lookup_insert_ne by discriminate. apply lookup_insert_eq. }
  assert (Hfr : forall a, a <> "status" -> a <> "userId" -> a <> "leaseExpiry" ->
                          attrs' !! a = attrs !! a).
  { intros a H1 H2 H3. subst attrs'. by rewrite !lookup_insert_ne by congruence. }
  repeat split.
  - unfold getItem. by rewrite lookup_insert_eq.
  - exact Hst.
  - subst attrs'. rewrite lookup_insert_ne by discriminate. apply lookup_insert_eq.
  - subst attrs'. apply lookup_insert_eq.
  - exact Hfr.
  - intros k Hkid. by rewrite lookup_insert_ne.
  - rewrite (release_eval _ _ _ Hid Hne)
      by (apply (keyAccepted_present _ _ attrs'), lookup_insert_eq).
    simpl. rewrite lookup_insert_eq; simpl.
    rewrite insert_insert_eq. f_equal. subst attrs'. attrs_eq.
  - congruence.
  - apply Hfr; discriminate.
  - apply Hfr; discriminate.
  - intros Hu He. apply insert_id. rewrite Hk. f_equal. subst attrs'.
    rewrite (insert_id _ "status") by assumption.
    rewrite (insert_id _ "userId") by assumption.
    by rewrite insert_id.
Qed.

Lemma release_existing_witness :
  table (release idBody leasedWorld).2 !! "i-0abc" =
  Some (<["leaseExpiry" := VNull]>
          (<["userId" := VNull]> (<["status" := VStr "available"]> leasedAttrs))).
Proof.
  destruct (release_existing idBody leasedWorld "i-0abc" leasedAttrs)
    as (_ & Htb & _); [reflexivity | discriminate | reflexivity |].
  rewrite Htb. apply lookup_insert_eq.
Defined.

(** C9, as the code has it.  For an id that is a non-empty string of at most
    2048 bytes and has no record, [release] does not fail: it answers ok and
    the unconditional update creates a record that holds only [instanceId],
    [status = "available"], [userId = null] and [leaseExpiry = null] (no
    [lastHeartbeat], no address); other records are unchanged. *)
Theorem release_unknown_upserts (body : gmap string Value) (w : World) (id : string) :
  prop body "instanceId" = VStr id -> id <> "" ->
  (String.length id <= 2048)%nat ->
  table w !! id = None ->
  let r := release body w in
  r.1 = Ok (reply 200 [("ok", VBool true); ("message", VStr "released");
                       ("instanceId", VStr id)]) /\
  getItem (table r.2) id =
    Some {[ "instanceId" := VStr id; "status" := VStr "available";
            "userId" := VNull; "leaseExpiry" := VNull ]} /\
  (forall item, getItem (table r.2) id = Some item ->
     item !! "lastHeartbeat" = None /\ item !! "publicIp" = None /\
     item !! "privateIp" = None) /\
  (forall k, k <> id -> table r.2 !! k = table w !! k).
Proof.
  intros Hid Hne Hlen Hk r. subst r.
  rewrite (release_eval _ _ _ Hid Hne (keyAccepted_keyOk _ _ (keyOk_intro _ Hne Hlen))), Hk.
  simpl.
  assert (Hget : getItem
            (<[id := <["leaseExpiry" := VNull]>
                       (<["userId" := VNull]> (<["status" := VStr "available"]> ∅))]> (table w)) id =
          Some {[ "instanceId" := VStr id; "status" := VStr "available";
                  "userId" := VNull; "leaseExpiry" := VNull ]}).
  { unfold getItem. rewrite lookup_insert_eq. reflexivity. }
  repeat split.
  - exact Hget.
  - rewrite Hget in H. injection H as <-. reflexivity.
  - rewrite Hget in H. injection H as <-. reflexivity.
  - rewrite Hget in H. injection H as <-. reflexivity.
  - intros k Hkid. by rewrite lookup_insert_ne.
Qed.

Lemma release_unknown_upserts_witness :
  getItem (table (release idBody freshWorld).2) "i-0abc" =
  Some {[ "instanceId" := VStr "i-0abc"; "status" := VStr "available";
          "userId" := VNull; "leaseExpiry" := VNull ]}.
Proof.
  destruct (release_unknown_upserts idBody freshWorld "i-0abc")
    as (_ & Hget & _); [reflexivity | discriminate | simpl; lia | reflexivity |].
  exact Hget.
Defined.

(** C9, as stated, fails: on the empty table neither the id [5] (a number)
    nor a string id of 2049 bytes has a record, and [release] for either is
    answered 500 [{error: "internal_error"}] and creates no record (the
    service refuses a key that is not a string of at most 2048 bytes). *)
Lemma release_unknown_not_every_id :
  truthy (prop numericIdBody "instanceId") = true /\
  (release numericIdBody freshWorld).1 = Ok internal_error /\
  table (release numericIdBody freshWorld).2 = ∅ /\
  String.length longId = 2049%nat /\
  table freshWorld !! longId = None /\
  (release longIdBody freshWorld).1 = Ok internal_error /\
  table (release longIdBody freshWorld).2 = ∅.
Proof. repeat split; vm_compute; reflexivity. Qed.

(** ** Register *)




(** ** Heartbeat *)

(** C4, as the code has it.  For an id that is a non-empty string of at most
    2048 bytes and has no record, [heartbeat] does not fail: it answers ok
    and the unconditional update creates a record that holds only
    [instanceId] and [lastHeartbeat] = the clock reading of the call; other
    records are unchanged. *)
Theorem heartbeat_unknown_upserts (body : gmap string Value) (w : World) (id : string) :
  prop body "instanceId" = VStr id -> id <> "" ->
  (String.length id <= 2048)%nat ->
  table w !! id = None ->
  let r := heartbeat body w in
  r.1 = Ok (reply 200 [("ok", VBool true)]) /\
  getItem (table r.2) id =
    Some {[ "instanceId" := VStr id; "lastHeartbeat" := VNum (clock w (ticks w)) ]} /\
  (forall k, k <> id -> table r.2 !! k = table w !! k).
Proof.
  intros Hid Hne Hlen Hk r. subst r.
  rewrite (heartbeat_eval _ _ _ Hid Hne (keyAccepted_keyOk _ _ (keyOk_intro _ Hne Hlen))), Hk.
  simpl.
  repeat split.
  - unfold getItem. rewrite lookup_insert_eq. reflexivity.
  - intros k Hkid. by rewrite lookup_insert_ne.
Qed.

Lemma heartbeat_unknown_upserts_witness :
  getItem (table (heartbeat idBody freshWorld).2) "i-0abc" =
  Some {[ "instanceId" := VStr "i-0abc"; "lastHeartbeat" := VNum 1700000000000 ]}.
Proof.
  destruct (heartbeat_unknown_upserts idBody freshWorld "i-0abc")
    as (_ & Hget & _); [reflexivity | discriminate | simpl; lia | reflexivity |].
  exact Hget.
Defined.

(** C4, as stated, fails: on the empty table a heartbeat for ["i-0abc"] is
    not rejected (the reply is 200 [{ok: true}]) and it changes the table,
    which now holds a record for that id. *)
Lemma heartbeat_unknown_not_rejected :
  table freshWorld !! "i-0abc" = None /\
  (heartbeat idBody freshWorld).1 = Ok (reply 200 [("ok", VBool true)]) /\
  table (heartbeat idBody freshWorld).2 !! "i-0abc" =
    Some {[ "lastHeartbeat" := VNum 1700000000000 ]} /\
  table (heartbeat idBody freshWorld).2 <> table freshWorld.
Proof.
  split; [reflexivity |]. split; [reflexivity |]. split; [reflexivity |].
  intros Heq. apply (f_equal (fun tb => tb !! "i-0abc")) in Heq. discriminate Heq.
Qed.

(** ** Health filter *)

Lemma heartbeatFresh_withKey (t : Z) (k : string) (attrs : gmap string Value) (hb : Z) :
  orElse (prop attrs "lastHeartbeat") (VNum 0) = VNum hb ->
  (heartbeatFresh t (withKey k attrs) = true <-> t - hb <= HEARTBEAT_MAX_AGE_MS).
Proof.
  intros Hhb. unfold heartbeatFresh.
  rewrite prop_withKey_ne by discriminate. rewrite Hhb. apply Z.leb_le.
Qed.

(** C6. Take a record with [status = "available"] whose
    [lastHeartbeat || 0] is the number [hb].  The Scan returns it at some
    position [i]; with [t] the clock reading taken when the filter examines
    it, the record is among the claim candidates exactly when
    [t - hb <= HEARTBEAT_MAX_AGE_MS], and it is left out when
    [t - hb > HEARTBEAT_MAX_AGE_MS].  The filter changes nothing in the table
    and [countAvailableWorkers] counts the same candidates. *)
Theorem claimable_iff_heartbeat_fresh (w : World) (k : string)
    (attrs : gmap string Value) (hb : Z) :
  table w !! k = Some attrs ->
  attrs !! "status" = Some (VStr "available") ->
  orElse (prop attrs "lastHeartbeat") (VNum 0) = VNum hb ->
  exists healthy w' i,
    claimable w = (Ok healthy, w') /\
    countAvailableWorkers w = (Ok (Z.of_nat (length healthy)), w') /\
    table w' = table w /\
    scanned (table w) !! i = Some (withKey k attrs) /\
    let t := clock w (ticks w + i)%nat in
    (withKey k attrs ∈ healthy <-> t - hb <= HEARTBEAT_MAX_AGE_MS) /\
    (t - hb > HEARTBEAT_MAX_AGE_MS -> withKey k attrs ∉ healthy).
Proof.
  intros Hk Hs Hhb.
  assert (Hin : withKey k attrs ∈ scanned (table w)).
  { apply elem_of_scanned. eauto. }
  apply list_elem_of_lookup in Hin as [i Hi].
  exists (keepFresh (clock w) (ticks w) (scanned (table w))),
         (advance (length (scanned (table w))) w), i.
  assert (Hiff : withKey k attrs ∈ keepFresh (clock w) (ticks w) (scanned (table w)) <->
                 clock w (ticks w + i)%nat - hb <= HEARTBEAT_MAX_AGE_MS).
  { rewrite elem_of_keepFresh. split.
    - intros (j & Hj & Hf).
      pose proof (NoDup_lookup _ _ _ _ (NoDup_scanned (table w)) Hj Hi) as ->.
      by apply (heartbeatFresh_withKey _ k attrs).
    - intros Hle. exists i. split; [assumption |].
      by apply (heartbeatFresh_withKey _ k attrs hb). }
  split; [apply claimable_eq |].
  split; [unfold countAvailableWorkers, bind; by rewrite claimable_eq |].
  split; [reflexivity |]. split; [assumption |].
  split; [exact Hiff |].
  intros Hgt Hmem. apply Hiff in Hmem. lia.
Qed.

Lemma claimable_iff_heartbeat_fresh_witness :
  exists healthy w',
    claimable (register workerBody freshWorld).2 = (Ok healthy, w') /\
    withKey "i-0abc" (registered workerBody 1700000000000) ∈ healthy.
Proof.
  destruct (claimable_iff_heartbeat_fresh (register workerBody freshWorld).2 "i-0abc"
              (registered workerBody 1700000000000) 1700000000000)
    as (healthy & w' & i & Hc & _ & _ & Hi & Hiff & _);
    [reflexivity | reflexivity | reflexivity |].
  exists healthy, w'. split; [exact Hc |].
  apply Hiff. destruct i as [| i]; [vm_compute; discriminate |].
  vm_compute in Hi. discriminate Hi.
Defined.

(** ** Claim *)

Lemma chosen_has_key (clk : nat -> Z) (n : nat) (tb : gmap string (gmap string Value))
    (chosen : gmap string Value) (rest : list (gmap string Value)) :
  keepFresh clk n (scanned tb) = chosen :: rest ->
  exists k attrs, tb !! k = Some attrs /\ attrs !! "status" = Some (VStr "available") /\
                  chosen = withKey k attrs.
Proof.
  intros Hkeep. apply elem_of_scanned, (keepFresh_sublist clk n).
  rewrite Hkeep. apply list_elem_of_here.
Qed.

Lemma claim_eval_chosen (T : Z)
    (others : gmap string (gmap string Value) -> gmap string (gmap string Value))
    (body : gmap string Value) (w : World) (chosen : gmap string Value)
    (rest : list (gmap string Value)) (k : string) :
  truthy (prop body "userId") = true ->
  keepFresh (clock w) (ticks w) (scanned (table w)) = chosen :: rest ->
  prop chosen "instanceId" = VStr k ->
  let n := length (scanned (table w)) in
  let expiry := clock w (ticks w + n)%nat + LEASE_TTL_MS in
  let tb := others (table w) in
  let w1 := set_table others (tick (advance n w)) in
  claim T others body w =
  if marshals w1 (prop body "userId") && keyAccepted tb k
  then
    match tb !! k with
    | Some attrs =>
        if attrIs "status" "available" attrs
        then (Ok (claimed chosen expiry),
              set_table (<[k := <["leaseExpiry" := VNum expiry]>
                                  (<["userId" := prop body "userId"]>
                                     (<["status" := VStr "leased"]> attrs))]>) w1)
        else (Ok conflict, w1)
    | None => (Ok conflict, w1)
    end
  else (Ok internal_error, w1).
Proof.
  intros Hu Hkeep Hkey n expiry tb w1.
  unfold claim, try_catch, claimed. rewrite Hu. cbn [negb].
  unfold bind at 1. rewrite claimable_eq, Hkeep.
  unfold bind, now, ret. rewrite Hkey. cbn [fst snd]. fold n.
  unfold UpdateCommand. cbn [forallb snd ddbKey].
  rewrite (marshals_expiry (advance n w) others). change (marshals _ (VStr k)) with true. change (marshals _ (VStr "leased")) with true.
  cbn [andb]. rewrite andb_true_r.
  change (table (set_table others (tick (advance n w)))) with tb. fold w1.
  destruct (marshals w1 (prop body "userId")); cbn [negb andb]; [| reflexivity].
  destruct (keyAccepted tb k); cbn [negb]; [| reflexivity].
  destruct (tb !! k) as [attrs |] eqn:Hk.
  - destruct (attrIs "status" "available" attrs); reflexivity.
  - reflexivity.
Qed.

Lemma claim_200_inv (T : Z)
    (others : gmap string (gmap string Value) -> gmap string (gmap string Value))
    (body : gmap string Value) (w w' : World) (resp : Response) :
  claim T others body w = (Ok resp, w') -> statusCode resp = 200 ->
  truthy (prop body "userId") = true /\
  exists chosen rest,
    keepFresh (clock w) (ticks w) (scanned (table w)) = chosen :: rest.
Proof.
  intros Hc H200.
  destruct (truthy (prop body "userId")) eqn:Hu.
  - split; [reflexivity |].
    destruct (keepFresh (clock w) (ticks w) (scanned (table w))) as [| chosen rest] eqn:Hkeep;
      [| eauto].
    exfalso. revert Hc. unfold claim, try_catch. rewrite Hu. cbn [negb].
    unfold bind at 1. rewrite claimable_eq, Hkeep.
    unfold bind. destruct (scaleToMeetBuffer T _) as [[v | e] w2].
    + unfold ret. intros [= <- _]. discriminate H200.
    + destruct (includes (name e) "ConditionalCheckFailed");
        unfold ret; intros [= <- _]; discriminate H200.
  - exfalso. revert Hc. unfold claim, try_catch. rewrite Hu. cbn [negb].
    unfold ret. intros [= <- _]. discriminate H200.
Qed.






(** ** Capacity controller *)

Section ScaleToMeetBuffer.

Variable T : Z.
Variable w : World.

Let t := clock w (ticks w).
Let last := lastScaleOutAt w.
Let availableNow := availableNowAt w.
Let missing := T - availableNow.

Lemma scale_gated :
  t < last + SCALE_COOLDOWN_MS ->
  scaleToMeetBuffer T w = (Ok (cooldown_active (SCALE_COOLDOWN_MS - (t - last))), tick w).
Proof.
  intros Hlt. unfold scaleToMeetBuffer, bind, now. cbn [fst snd].
  change (lastScaleOutAt (tick w)) with last. fold t.
  destruct (Z.ltb_spec t (last + SCALE_COOLDOWN_MS)); [reflexivity | lia].
Qed.

Lemma scale_not_gated :
  last + SCALE_COOLDOWN_MS <= t ->
  scaleToMeetBuffer T w =
  (if missing <=? 0 then ret (buffer_satisfied availableNow T)
   else
     let! group := DescribeAutoScalingGroups in
     match group with
     | None => throw (mkExn "Error" ("ASG not found: " ++ ASG_NAME))
     | Some group =>
         let desired := nullish (DesiredCapacity group) 0 in
         let max := nullish (MaxSize group) desired in
         let desiredAfter := Z.min (desired + missing) max in
         if desiredAfter =? desired
         then ret (at_max_capacity desired max missing availableNow T)
         else
           do! SetDesiredCapacity desiredAfter in
           do! (fun w' => (Ok tt, set_lastScaleOutAt t w')) in
           ret (scaled_to_meet_buffer availableNow T missing desired desiredAfter)
     end) (afterCount w).
Proof.
  intros Hge. unfold scaleToMeetBuffer. unfold bind at 1. unfold now. cbn [fst snd].
  unfold bind at 1. change (lastScaleOutAt (tick w)) with last. fold t.
  destruct (Z.ltb_spec t (last + SCALE_COOLDOWN_MS)); [lia |].
  unfold bind at 1. unfold countAvailableWorkers. unfold bind at 1.
  rewrite claimable_eq. unfold ret at 1. reflexivity.
Qed.

Lemma scale_satisfied :
  last + SCALE_COOLDOWN_MS <= t -> missing <= 0 ->
  scaleToMeetBuffer T w = (Ok (buffer_satisfied availableNow T), afterCount w).
Proof.
  intros Hge Hm. rewrite (scale_not_gated Hge).
  destruct (Z.leb_spec missing 0); [reflexivity | lia].
Qed.

Lemma scale_no_group :
  last + SCALE_COOLDOWN_MS <= t -> 0 < missing -> asgGroup w = None ->
  scaleToMeetBuffer T w =
  (Throw (mkExn "Error" ("ASG not found: " ++ ASG_NAME)),
   log_asg DescribeAutoScalingGroupsCommand (afterCount w)).
Proof.
  intros Hge Hm Hg. rewrite (scale_not_gated Hge).
  destruct (Z.leb_spec missing 0); [lia |].
  unfold bind, DescribeAutoScalingGroups.
  change (asgGroup (afterCount w)) with (asgGroup w). rewrite Hg. reflexivity.
Qed.

Lemma scale_at_max (g : Group) :
  last + SCALE_COOLDOWN_MS <= t -> 0 < missing -> asgGroup w = Some g ->
  let desired := nullish (DesiredCapacity g) 0 in
  let max := nullish (MaxSize g) desired in
  Z.min (desired + missing) max = desired ->
  scaleToMeetBuffer T w =
  (Ok (at_max_capacity desired max missing availableNow T),
   log_asg DescribeAutoScalingGroupsCommand (afterCount w)).
Proof.
  intros Hge Hm Hg desired max Hmin. rewrite (scale_not_gated Hge).
  destruct (Z.leb_spec missing 0); [lia |].
  unfold bind, DescribeAutoScalingGroups.
  change (asgGroup (afterCount w)) with (asgGroup w). rewrite Hg. fold desired. fold max. rewrite Hmin, Z.eqb_refl. reflexivity.
Qed.

Lemma scale_out (g : Group) :
  last + SCALE_COOLDOWN_MS <= t -> 0 < missing -> asgGroup w = Some g ->
  let desired := nullish (DesiredCapacity g) 0 in
  let max := nullish (MaxSize g) desired in
  let desiredAfter := Z.min (desired + missing) max in
  desiredAfter <> desired ->
  scaleToMeetBuffer T w =
  (Ok (scaled_to_meet_buffer availableNow T missing desired desiredAfter),
   set_lastScaleOutAt t
     (set_asgGroup (Some (mkGroup (Some desiredAfter) (MaxSize g)))
        (log_asg (SetDesiredCapacityCommand desiredAfter)
           (log_asg DescribeAutoScalingGroupsCommand (afterCount w))))).
Proof.
  intros Hge Hm Hg desired max desiredAfter Hne. rewrite (scale_not_gated Hge).
  destruct (Z.leb_spec missing 0); [lia |].
  unfold bind at 1. unfold DescribeAutoScalingGroups.
  change (asgGroup (afterCount w)) with (asgGroup w). rewrite Hg.
  fold desired. fold max. fold desiredAfter.
  destruct (Z.eqb_spec desiredAfter desired); [contradiction |].
  unfold bind, SetDesiredCapacity.
  change (asgGroup (log_asg _ (afterCount w))) with (asgGroup w). rewrite Hg. destruct (MaxSize g) as [mx |] eqn:Hmx.
  - assert (Hle : desiredAfter <= mx) by (subst desiredAfter max; simpl; lia).
    destruct (Z.ltb_spec mx desiredAfter); [lia | reflexivity].
  - exfalso. apply Hne. subst desiredAfter max. simpl. lia.
Qed.

End ScaleToMeetBuffer.

(** The five ways a call can go. *)
Lemma scale_cases (T : Z) (w : World) :
  let t := clock w (ticks w) in
  let last := lastScaleOutAt w in
  let availableNow := availableNowAt w in
  let missing := T - availableNow in
  let described := log_asg DescribeAutoScalingGroupsCommand (afterCount w) in
  (t < last + SCALE_COOLDOWN_MS /\
   scaleToMeetBuffer T w = (Ok (cooldown_active (SCALE_COOLDOWN_MS - (t - last))), tick w))
  \/ (last + SCALE_COOLDOWN_MS <= t /\ missing <= 0 /\
      scaleToMeetBuffer T w = (Ok (buffer_satisfied availableNow T), afterCount w))
  \/ (last + SCALE_COOLDOWN_MS <= t /\ 0 < missing /\ asgGroup w = None /\
      scaleToMeetBuffer T w =
      (Throw (mkExn "Error" ("ASG not found: " ++ ASG_NAME)), described))
  \/ (exists g, let desired := nullish (DesiredCapacity g) 0 in
                let max := nullish (MaxSize g) desired in
      last + SCALE_COOLDOWN_MS <= t /\ 0 < missing /\ asgGroup w = Some g /\
      Z.min (desired + missing) max = desired /\
      scaleToMeetBuffer T w =
      (Ok (at_max_capacity desired max missing availableNow T), described))
  \/ (exists g, let desired := nullish (DesiredCapacity g) 0 in
                let max := nullish (MaxSize g) desired in
                let desiredAfter := Z.min (desired + missing) max in
      last + SCALE_COOLDOWN_MS <= t /\ 0 < missing /\ asgGroup w = Some g /\
      desiredAfter <> desired /\
      scaleToMeetBuffer T w =
      (Ok (scaled_to_meet_buffer availableNow T missing desired desiredAfter),
       set_lastScaleOutAt t
         (set_asgGroup (Some (mkGroup (Some desiredAfter) (MaxSize g)))
            (log_asg (SetDesiredCapacityCommand desiredAfter) described)))).
Proof.
  intros t last availableNow missing described.
  destruct (Z.lt_ge_cases t (last + SCALE_COOLDOWN_MS)) as [Hlt | Hge].
  { left. split; [assumption | by apply scale_gated]. }
  right. destruct (Z.le_gt_cases missing 0) as [Hm | Hm].
  { left. split; [assumption |]. split; [assumption | by apply scale_satisfied]. }
  right. destruct (asgGroup w) as [g |] eqn:Hg.
  2:{ left. repeat (split; [assumption || reflexivity |]). by apply scale_no_group. }
  right.
  destruct (Z.eq_dec (Z.min (nullish (DesiredCapacity g) 0 + missing)
                            (nullish (MaxSize g) (nullish (DesiredCapacity g) 0)))
                     (nullish (DesiredCapacity g) 0)) as [Heq | Hne].
  - left. exists g. cbn zeta. repeat (split; [assumption || reflexivity |]).
    by apply scale_at_max.
  - right. exists g. cbn zeta. repeat (split; [assumption || reflexivity |]).
    by apply scale_out.
Qed.

(** C2. A call whose first clock reading [t] satisfies
    [t < lastScaleOutAt + SCALE_COOLDOWN_MS] returns
    [{scaled: false, reason: "cooldown_active", retryAfterMs}] with
    [retryAfterMs = SCALE_COOLDOWN_MS - (t - lastScaleOutAt)], sends nothing to
    the Auto Scaling service and changes neither the group, the table nor
    [lastScaleOutAt].  In particular, after a call that scaled out at reading
    [t1], a call at a reading [t2 < t1 + SCALE_COOLDOWN_MS] returns
    [cooldown_active] whatever the table holds (so even if the buffer is
    unmet). *)
Theorem scaleToMeetBuffer_cooldown :
  (forall (T : Z) (w : World),
     let t := clock w (ticks w) in
     let last := lastScaleOutAt w in
     t < last + SCALE_COOLDOWN_MS ->
     let r := scaleToMeetBuffer T w in
     r.1 = Ok (cooldown_active (SCALE_COOLDOWN_MS - (t - last))) /\
     asgSent r.2 = asgSent w /\ asgGroup r.2 = asgGroup w /\
     table r.2 = table w /\ lastScaleOutAt r.2 = last) /\
  (forall (T : Z) (w1 w2 : World) (v : Value),
     let t1 := clock w1 (ticks w1) in
     let t2 := clock w2 (ticks w2) in
     (scaleToMeetBuffer T w1).1 = Ok v -> get v "scaled" = VBool true ->
     lastScaleOutAt w2 = lastScaleOutAt (scaleToMeetBuffer T w1).2 ->
     t2 < t1 + SCALE_COOLDOWN_MS ->
     let r := scaleToMeetBuffer T w2 in
     r.1 = Ok (cooldown_active (SCALE_COOLDOWN_MS - (t2 - t1))) /\
     asgSent r.2 = asgSent w2).
Proof.
  assert (Hgate : forall (T : Z) (w : World),
     clock w (ticks w) < lastScaleOutAt w + SCALE_COOLDOWN_MS ->
     scaleToMeetBuffer T w =
     (Ok (cooldown_active (SCALE_COOLDOWN_MS - (clock w (ticks w) - lastScaleOutAt w))),
      tick w)).
  { intros T w Hlt. by apply scale_gated. }
  split.
  - intros T w t last Hlt r. subst r. rewrite (Hgate T w Hlt). repeat split.
  - intros T w1 w2 v t1 t2 Hv Hs Hlast Hlt r.
    assert (Hl1 : lastScaleOutAt (scaleToMeetBuffer T w1).2 = t1).
    { destruct (scale_cases T w1)
        as [[_ Hr] | [(_ & _ & Hr) | [(_ & _ & _ & Hr) | [(g & _ & _ & _ & _ & Hr)
           | (g & _ & _ & _ & _ & Hr)]]]];
        rewrite Hr in Hv |- *; cbn [fst snd] in Hv |- *;
        try discriminate Hv; injection Hv as <-; try discriminate Hs.
      reflexivity. }
    rewrite Hl1 in Hlast. subst r.
    assert (Hlt2 : clock w2 (ticks w2) < lastScaleOutAt w2 + SCALE_COOLDOWN_MS)
      by (rewrite Hlast; exact Hlt).
    rewrite (Hgate T w2 Hlt2), Hlast. split; reflexivity.
Qed.

Lemma scaleToMeetBuffer_cooldown_witness :
  let w2 := (scaleToMeetBuffer 2 freshWorld).2 in
  (scaleToMeetBuffer 2 w2).1 = Ok (cooldown_active (SCALE_COOLDOWN_MS - 1)) /\
  asgSent (scaleToMeetBuffer 2 w2).2 = asgSent w2 /\
  lastScaleOutAt (scaleToMeetBuffer 2 w2).2 = 1700000000000.
Proof.
  intros w2.
  destruct (proj2 scaleToMeetBuffer_cooldown 2 freshWorld w2
              (scaled_to_meet_buffer 0 2 2 3 5))
    as [Hr Hsent]; [reflexivity | reflexivity | reflexivity | vm_compute; reflexivity |].
  destruct (proj1 scaleToMeetBuffer_cooldown 2 w2)
    as (_ & _ & _ & _ & Hlast); [vm_compute; reflexivity |].
  split; [exact Hr |]. split; [exact Hsent | exact Hlast].
Defined.

(** C3. When the cooldown does not gate the call, with [availableNow] the
    number of claimable workers and [missing = TARGET_AVAILABLE - availableNow]:
    if [missing <= 0] the call returns [buffer_satisfied] and sends nothing to
    the Auto Scaling service; otherwise it describes the group and, with
    [desired] and [max] as reported and
    [desiredAfter = min (desired + missing) max], returns
    [{scaled: false, reason: "ASG at max capacity", desired, max}] without
    setting anything if [desiredAfter = desired], and else sets the desired
    capacity to [desiredAfter] and returns
    [{scaled: true, desiredBefore: desired, desiredAfter}].  With no claimable
    worker, target 2 and a group at 3 of 5: [missing = 2], [desiredAfter = 5],
    [scaled = true]. *)
Theorem scaleToMeetBuffer_decision :
  (forall (T : Z) (w : World),
     let t := clock w (ticks w) in
     lastScaleOutAt w + SCALE_COOLDOWN_MS <= t ->
     exists healthy w1,
       claimable (tick w) = (Ok healthy, w1) /\
       let availableNow := Z.of_nat (length healthy) in
       let missing := T - availableNow in
       let r := scaleToMeetBuffer T w in
       (missing <= 0 ->
          r.1 = Ok (buffer_satisfied availableNow T) /\
          asgSent r.2 = asgSent w /\ asgGroup r.2 = asgGroup w) /\
       (0 < missing ->
          forall g, asgGroup w = Some g ->
            let desired := nullish (DesiredCapacity g) 0 in
            let max := nullish (MaxSize g) desired in
            let desiredAfter := Z.min (desired + missing) max in
            (desiredAfter = desired ->
               r.1 = Ok (at_max_capacity desired max missing availableNow T) /\
               asgSent r.2 = (asgSent w ++ [DescribeAutoScalingGroupsCommand])%list /\
               asgGroup r.2 = asgGroup w) /\
            (desiredAfter <> desired ->
               r.1 = Ok (scaled_to_meet_buffer availableNow T missing desired desiredAfter) /\
               asgSent r.2 =
                 (asgSent w ++ [DescribeAutoScalingGroupsCommand;
                                SetDesiredCapacityCommand desiredAfter])%list /\
               asgGroup r.2 = Some (mkGroup (Some desiredAfter) (MaxSize g))))) /\
  (forall (w : World),
     lastScaleOutAt w + SCALE_COOLDOWN_MS <= clock w (ticks w) ->
     availableNowAt w = 0 ->
     asgGroup w = Some (mkGroup (Some 3) (Some 5)) ->
     let r := scaleToMeetBuffer 2 w in
     r.1 = Ok (scaled_to_meet_buffer 0 2 2 3 5) /\
     get (scaled_to_meet_buffer 0 2 2 3 5) "missing" = VNum 2 /\
     get (scaled_to_meet_buffer 0 2 2 3 5) "desiredAfter" = VNum 5 /\
     get (scaled_to_meet_buffer 0 2 2 3 5) "scaled" = VBool true).
Proof.
  split.
  - intros T w t Hge.
    exists (keepFresh (clock w) (S (ticks w)) (scanned (table w))), (afterCount w).
    split; [apply claimable_eq |].
    intros availableNow missing r. split.
    + intros Hm. subst r. rewrite (scale_satisfied T w Hge Hm). repeat split.
    + intros Hm g Hg desired max desiredAfter. split.
      * intros Heq. subst r. rewrite (scale_at_max T w g Hge Hm Hg Heq).
        repeat split.
      * intros Hne. subst r. rewrite (scale_out T w g Hge Hm Hg Hne).
        cbn [fst snd]. split; [reflexivity |]. split; [| reflexivity].
        simpl. by rewrite <- app_assoc.
  - intros w Hge Hav Hg r. subst r.
    assert (Hm : 0 < 2 - availableNowAt w) by (rewrite Hav; lia).
    assert (Hne : Z.min (nullish (Some 3) 0 + (2 - availableNowAt w))
                        (nullish (Some 5) (nullish (Some 3) 0)) <> nullish (Some 3) 0)
      by (rewrite Hav; simpl; lia).
    rewrite (scale_out 2 w _ Hge Hm Hg Hne). rewrite Hav. repeat split.
Qed.

Lemma scaleToMeetBuffer_decision_witness :
  (scaleToMeetBuffer 2 freshWorld).1 = Ok (scaled_to_meet_buffer 0 2 2 3 5) /\
  asgSent (scaleToMeetBuffer 2 freshWorld).2 =
    [DescribeAutoScalingGroupsCommand; SetDesiredCapacityCommand 5].
Proof.
  destruct (proj2 scaleToMeetBuffer_decision freshWorld) as [Hr _];
    [vm_compute; discriminate | reflexivity | reflexivity |].
  split; [exact Hr |].
  destruct (proj1 scaleToMeetBuffer_decision 2 freshWorld)
    as (healthy & w1 & Hc & _ & Hpos); [vm_compute; discriminate |].
  injection Hc as <- _.
  destruct (Hpos ltac:(vm_compute; reflexivity) _ eq_refl) as [_ Hout].
  destruct Hout as (_ & Hsent & _); [vm_compute; discriminate |].
  exact Hsent.
Defined.

(** C10. [lastScaleOutAt] changes only when the call returns [scaled: true]:
    then the last two commands sent were the describe and a
    [SetDesiredCapacity] that the service accepted (the group now has that
    desired capacity), and [lastScaleOutAt] is the call's first clock reading.
    When the call returns [scaled: false] (reason [cooldown_active],
    [buffer_satisfied] or ["ASG at max capacity"]) or throws,
    [lastScaleOutAt] is unchanged. *)
Theorem lastScaleOutAt_only_on_scale_out (T : Z) (w : World) :
  let r := scaleToMeetBuffer T w in
  match r.1 with
  | Ok v =>
      (get v "scaled" = VBool true /\
       lastScaleOutAt r.2 = clock w (ticks w) /\
       exists n, asgSent r.2 =
                   (asgSent w ++ [DescribeAutoScalingGroupsCommand;
                                  SetDesiredCapacityCommand n])%list /\
                 DesiredCapacity <$> asgGroup r.2 = Some (Some n))
      \/
      (get v "scaled" = VBool false /\
       (get v "reason" = VStr "cooldown_active" \/
        get v "reason" = VStr "buffer_satisfied" \/
        get v "reason" = VStr "ASG at max capacity") /\
       lastScaleOutAt r.2 = lastScaleOutAt w)
  | Throw _ => lastScaleOutAt r.2 = lastScaleOutAt w
  end.
Proof.
  intros r. subst r.
  destruct (scale_cases T w)
    as [[_ Hr] | [(_ & _ & Hr) | [(_ & _ & _ & Hr) | [(g & _ & _ & _ & _ & Hr)
       | (g & _ & _ & _ & _ & Hr)]]]];
    rewrite Hr; cbn [fst snd].
  - right. split; [reflexivity |]. split; [auto | reflexivity].
  - right. split; [reflexivity |]. split; [auto | reflexivity].
  - reflexivity.
  - right. split; [reflexivity |]. split; [auto | reflexivity].
  - left. split; [reflexivity |]. split; [reflexivity |].
    eexists. split; [| reflexivity]. simpl. by rewrite <- app_assoc.
Qed.

(** ** The lease invariant across claims and releases *)

Lemma scaleToMeetBuffer_table (T : Z) (w : World) :
  table (scaleToMeetBuffer T w).2 = table w.
Proof.
  destruct (scale_cases T w)
    as [[_ Hr] | [(_ & _ & Hr) | [(_ & _ & _ & Hr) | [(g & _ & _ & _ & _ & Hr)
       | (g & _ & _ & _ & _ & Hr)]]]];
    rewrite Hr; reflexivity.
Qed.

Lemma claim_leaseClear (T : Z)
    (others : gmap string (gmap string Value) -> gmap string (gmap string Value))
    (body : gmap string Value) (w : World) :
  (forall tb, leaseClear tb -> leaseClear (others tb)) ->
  leaseClear (table w) -> leaseClear (table (claim T others body w).2).
Proof.
  intros Hothers Hinv.
  destruct (truthy (prop body "userId")) eqn:Hu.
  2:{ unfold claim, try_catch. rewrite Hu. exact Hinv. }
  destruct (keepFresh (clock w) (ticks w) (scanned (table w))) as [| chosen rest] eqn:Hkeep.
  - unfold claim, try_catch. rewrite Hu. cbn [negb].
    unfold bind at 1. rewrite claimable_eq, Hkeep. unfold bind.
    pose proof (scaleToMeetBuffer_table T (advance (length (scanned (table w))) w)) as Htb.
    destruct (scaleToMeetBuffer T _) as [[v | e] w2]; cbn [fst snd] in Htb |- *.
    + unfold ret; cbn [snd]. rewrite Htb. exact Hinv.
    + destruct (includes (name e) "ConditionalCheckFailed");
        unfold ret; cbn [snd]; rewrite Htb; exact Hinv.
  - destruct (chosen_has_key _ _ _ _ _ Hkeep) as (k & attrs0 & _ & _ & ->).
    rewrite (claim_eval_chosen T others body w _ rest k Hu Hkeep
               (prop_withKey_instanceId k attrs0)).
    destruct (_ && _); [| apply Hothers; exact Hinv].
    destruct (others (table w) !! k) as [attrs |] eqn:Hk;
      [destruct (attrIs "status" "available" attrs) |]; cbn [snd];
      try (apply Hothers; exact Hinv).
    cbn [set_table table tick advance]. apply leaseClear_insert; [by apply Hothers |].
    rewrite !lookup_insert_ne by discriminate. rewrite lookup_insert_eq. discriminate.
Qed.

(** On a table where available workers carry no lease, releasing an
    available worker leaves the table as it is. *)
Lemma release_available_noop (body : gmap string Value) (w : World) (id : string) :
  prop body "instanceId" = VStr id -> id <> "" ->
  leaseClear (table w) -> isAvailable (table w) id ->
  table (release body w).2 = table w.
Proof.
  intros Hid Hne Hinv (attrs & Hk & Hs).
  destruct (Hinv id attrs Hk Hs) as [Hu He].
  rewrite (release_eval _ _ _ Hid Hne (keyAccepted_present _ _ _ Hk)), Hk.
  cbn [snd set_table table default applySet foldl].
  apply insert_id. rewrite Hk. f_equal.
  rewrite (insert_id _ "status") by assumption.
  rewrite (insert_id _ "userId") by assumption.
  by rewrite insert_id.
Qed.

(** ** Requests without the required field *)

(** X1. A [/register], [/heartbeat] or [/release] request whose [instanceId] is
    missing or falsy ([undefined], [null], the empty string, [0], [false]) is
    answered 400 "instanceId is required" before anything is done: no clock
    reading, no table access, the world is the same. *)
Theorem instanceId_required (body : gmap string Value) (w : World) :
  truthy (prop body "instanceId") = false ->
  let bad := reply 400 [("error", VStr "instanceId is required")] in
  register body w = (Ok bad, w) /\
  heartbeat body w = (Ok bad, w) /\
  release body w = (Ok bad, w).
Proof.
  intros Hf bad. unfold register, heartbeat, release, try_catch.
  rewrite Hf. repeat split.
Qed.

Lemma instanceId_required_witness :
  register ∅ freshWorld =
    (Ok (reply 400 [("error", VStr "instanceId is required")]), freshWorld) /\
  release {[ "instanceId" := VStr "" ]} leasedWorld =
    (Ok (reply 400 [("error", VStr "instanceId is required")]), leasedWorld).
Proof.
  split.
  - exact (proj1 (instanceId_required ∅ freshWorld eq_refl)).
  - exact (proj2 (proj2 (instanceId_required {[ "instanceId" := VStr "" ]} leasedWorld
                           eq_refl))).
Defined.

(** X2. A [/claim] request whose [userId] is missing or falsy is answered 400
    "userId is required" in both revisions, before the table is scanned: the
    world is the same, whatever workers are available. *)
Theorem userId_required (T : Z)
    (others : gmap string (gmap string Value) -> gmap string (gmap string Value))
    (body : gmap string Value) (w : World) :
  truthy (prop body "userId") = false ->
  let bad := reply 400 [("error", VStr "userId is required")] in
  claim T others body w = (Ok bad, w) /\
  Rev1.claim others body w = (Ok bad, w).
Proof.
  intros Hf bad. unfold claim, Rev1.claim, try_catch. rewrite Hf. split; reflexivity.
Qed.

Lemma userId_required_witness :
  claim 2 (fun tb => tb) ∅ registeredWorld =
    (Ok (reply 400 [("error", VStr "userId is required")]), registeredWorld).
Proof.
  apply (userId_required 2 (fun tb => tb) ∅ registeredWorld). reflexivity.
Defined.

(** ** Heartbeat of a known worker *)

(** X3. For an existing record, [heartbeat] answers ok and sets [lastHeartbeat]
    to the clock reading of the call; every other attribute of the record
    (in particular [status], [userId] and [leaseExpiry]: a leased worker stays
    leased) and every other record are unchanged. *)
Theorem heartbeat_existing (body : gmap string Value) (w : World) (id : string)
    (attrs : gmap string Value) :
  prop body "instanceId" = VStr id -> id <> "" ->
  table w !! id = Some attrs ->
  let attrs' := <["lastHeartbeat" := VNum (clock w (ticks w))]> attrs in
  let r := heartbeat body w in
  r.1 = Ok (reply 200 [("ok", VBool true)]) /\
  table r.2 = <[id := attrs']> (table w) /\
  attrs' !! "lastHeartbeat" = Some (VNum (clock w (ticks w))) /\
  (forall a, a <> "lastHeartbeat" -> attrs' !! a = attrs !! a) /\
  (forall k, k <> id -> table r.2 !! k = table w !! k).
Proof.
  intros Hid Hne Hk attrs' r. subst r.
  rewrite (heartbeat_eval _ _ _ Hid Hne (keyAccepted_present _ _ _ Hk)), Hk.
  cbn [fst snd set_table table default tick].
  split; [reflexivity |]. split; [reflexivity |].
  split; [apply lookup_insert_eq |]. split.
  - intros a Ha. subst attrs'. by rewrite lookup_insert_ne.
  - intros k Hkid. by rewrite lookup_insert_ne.
Qed.

Lemma heartbeat_existing_witness :
  table (heartbeat idBody leasedWorld).2 !! "i-0abc" =
  Some (<["lastHeartbeat" := VNum 1700000000003]> leasedAttrs).
Proof.
  destruct (heartbeat_existing idBody leasedWorld "i-0abc" leasedAttrs)
    as (_ & Htb & _); [reflexivity | discriminate | reflexivity |].
  rewrite Htb. apply lookup_insert_eq.
Defined.

(** ** Outcomes of a claim *)

Lemma claim_eval_none (T : Z)
    (others : gmap string (gmap string Value) -> gmap string (gmap string Value))
    (body : gmap string Value) (w : World) :
  truthy (prop body "userId") = true ->
  keepFresh (clock w) (ticks w) (scanned (table w)) = [] ->
  let s := scaleToMeetBuffer T (advance (length (scanned (table w))) w) in
  claim T others body w =
  match s.1 with
  | Ok v =>
      (Ok (reply 202
             [("ok", VBool false);
              ("message", VStr "No machines available. Scaling up. Retry in a few seconds.");
              ("scaleInfo", v)]), s.2)
  | Throw e =>
      (Ok (if includes (name e) "ConditionalCheckFailed" then conflict else internal_error),
       s.2)
  end.
Proof.
  intros Hu Hkeep s. subst s. unfold claim, try_catch. rewrite Hu. cbn [negb].
  unfold bind at 1. rewrite claimable_eq, Hkeep. unfold bind.
  destruct (scaleToMeetBuffer T _) as [[v | e] w2]; cbn [fst snd]; [reflexivity |].
  destruct (includes (name e) "ConditionalCheckFailed"); reflexivity.
Qed.

Lemma scale_throw_inv (T : Z) (w : World) (e : Exn) :
  (scaleToMeetBuffer T w).1 = Throw e ->
  e = mkExn "Error" ("ASG not found: " ++ ASG_NAME) /\ asgGroup w = None /\
  lastScaleOutAt (scaleToMeetBuffer T w).2 = lastScaleOutAt w.
Proof.
  destruct (scale_cases T w)
    as [[_ Hr] | [(_ & _ & Hr) | [(_ & _ & Hg & Hr) | [(g & _ & _ & _ & _ & Hr)
       | (g & _ & _ & _ & _ & Hr)]]]];
    rewrite Hr; cbn [fst snd]; intros He; try discriminate He.
  injection He as <-. auto.
Qed.

(** X4. When no worker is claimable, [/claim] hands the decision to
    [scaleToMeetBuffer] and never touches the table: it answers 202 with
    [ok: false] and the controller's reply as [scaleInfo]; when the controller
    throws, the [catch] block answers 500 (409 should the exception's name
    contain "ConditionalCheckFailed") and [lastScaleOutAt] is unchanged. *)
Theorem claim_no_candidate (T : Z)
    (others : gmap string (gmap string Value) -> gmap string (gmap string Value))
    (body : gmap string Value) (w w1 : World) :
  truthy (prop body "userId") = true ->
  claimable w = (Ok [], w1) ->
  let s := scaleToMeetBuffer T w1 in
  let r := claim T others body w in
  r.2 = s.2 /\ table r.2 = table w /\
  (forall v, s.1 = Ok v ->
     r.1 = Ok (reply 202
                 [("ok", VBool false);
                  ("message", VStr "No machines available. Scaling up. Retry in a few seconds.");
                  ("scaleInfo", v)])) /\
  (forall e, s.1 = Throw e ->
     r.1 = Ok (if includes (name e) "ConditionalCheckFailed"
               then conflict else internal_error) /\
     lastScaleOutAt r.2 = lastScaleOutAt w).
Proof.
  intros Hu Hc s r. rewrite claimable_eq in Hc. injection Hc as Hkeep <-.
  subst r. rewrite (claim_eval_none T others body w Hu Hkeep). fold s.
  pose proof (scaleToMeetBuffer_table T (advance (length (scanned (table w))) w)) as Htb.
  fold s in Htb.
  destruct (s.1) as [v | e] eqn:Hs; cbn [fst snd].
  - split; [reflexivity |]. split; [exact Htb |]. split.
    + intros v' [= <-]. reflexivity.
    + intros e He. discriminate He.
  - split; [reflexivity |]. split; [exact Htb |]. split.
    + intros v Hv. discriminate Hv.
    + intros e' [= <-]. split; [reflexivity |].
      destruct (scale_throw_inv _ _ _ Hs) as (_ & _ & Hl). exact Hl.
Qed.

Lemma claim_no_candidate_witness :
  (claim 2 (fun tb => tb) userBody freshWorld).1 =
  Ok (reply 202
        [("ok", VBool false);
         ("message", VStr "No machines available. Scaling up. Retry in a few seconds.");
         ("scaleInfo", scaled_to_meet_buffer 0 2 2 3 5)]).
Proof.
  destruct (claim_no_candidate 2 (fun tb => tb) userBody freshWorld freshWorld)
    as (_ & _ & Hok & _); [reflexivity | reflexivity |].
  apply Hok. reflexivity.
Defined.

(** X5. [/claim] always answers (no exception leaves the handler) with one of
    the statuses 200, 202, 400, 409 and 500.  The status is 400 exactly when
    [userId] is falsy; 202 is only answered when the handler found no
    claimable worker, and 200 only when it found one. *)
Theorem claim_status (T : Z)
    (others : gmap string (gmap string Value) -> gmap string (gmap string Value))
    (body : gmap string Value) (w : World) :
  exists resp,
    (claim T others body w).1 = Ok resp /\
    (statusCode resp = 200 \/ statusCode resp = 202 \/ statusCode resp = 400 \/
     statusCode resp = 409 \/ statusCode resp = 500) /\
    (statusCode resp = 400 <-> truthy (prop body "userId") = false) /\
    (forall healthy w1, claimable w = (Ok healthy, w1) ->
       (statusCode resp = 202 -> healthy = []) /\
       (statusCode resp = 200 -> healthy <> [])).
Proof.
  destruct (truthy (prop body "userId")) eqn:Hu.
  2:{ eexists. unfold claim, try_catch. rewrite Hu. cbn [negb ret fst].
      split; [reflexivity |]. split; [auto |]. split; [split; reflexivity |].
      intros healthy w1 _. split; discriminate. }
  destruct (keepFresh (clock w) (ticks w) (scanned (table w))) as [| chosen rest] eqn:Hkeep.
  - rewrite (claim_eval_none T others body w Hu Hkeep).
    assert (Hnone : forall healthy w1, claimable w = (Ok healthy, w1) -> healthy = []).
    { intros healthy w1 Hc. rewrite claimable_eq, Hkeep in Hc. by injection Hc as <- _. }
    destruct (scaleToMeetBuffer T _).1 as [v | e] eqn:Hs; cbn [fst].
    + eexists. split; [reflexivity |]. split; [auto |].
      split; [split; discriminate |].
      intros healthy w1 Hc. split; [intros _; eauto | discriminate].
    + destruct (includes (name e) "ConditionalCheckFailed");
        (eexists; split; [reflexivity |]; split; [auto 6 |];
         split; [split; discriminate |];
         intros healthy w1 Hc; split; discriminate).
  - destruct (chosen_has_key _ _ _ _ _ Hkeep) as (k & attrs0 & _ & _ & ->).
    rewrite (claim_eval_chosen T others body w _ rest k Hu Hkeep
               (prop_withKey_instanceId k attrs0)).
    assert (Hcand : forall healthy w1, claimable w = (Ok healthy, w1) -> healthy <> []).
    { intros healthy w1 Hc. rewrite claimable_eq, Hkeep in Hc. injection Hc as <- _.
      discriminate. }
    destruct (_ && _);
      [destruct (others (table w) !! k) as [attrs |];
       [destruct (attrIs "status" "available" attrs) |] |];
      (eexists; split; [reflexivity |]; split; [auto 6 |];
       split; [split; discriminate |];
       intros healthy w1 Hc; split; [discriminate | intros _; eauto]).
Qed.

(** ** One worker, one lease *)

(** What a 200 answer means for the tables: the worker returned was
    available both in the table scanned and in the table written. *)
Lemma claim_200_tables (T : Z)
    (others : gmap string (gmap string Value) -> gmap string (gmap string Value))
    (body : gmap string Value) (w w' : World) (resp : Response) :
  claim T others body w = (Ok resp, w') -> statusCode resp = 200 ->
  exists k attrs attrs1 expiry,
    truthy (prop body "userId") = true /\
    get (json resp) "instanceId" = VStr k /\
    table w !! k = Some attrs /\ attrs !! "status" = Some (VStr "available") /\
    others (table w) !! k = Some attrs1 /\
    attrs1 !! "status" = Some (VStr "available") /\
    table w' =
      <[k := <["leaseExpiry" := VNum expiry]>
               (<["userId" := prop body "userId"]>
                  (<["status" := VStr "leased"]> attrs1))]> (others (table w)).
Proof.
  intros Hc H200.
  destruct (claim_200_inv _ _ _ _ _ _ Hc H200) as (Hu & chosen & rest & Hkeep).
  destruct (chosen_has_key _ _ _ _ _ Hkeep) as (k & attrs & Hk & Hs & ->).
  rewrite (claim_eval_chosen T others body w _ rest k Hu Hkeep
             (prop_withKey_instanceId k attrs)) in Hc.
  destruct (_ && _).
  2:{ injection Hc as <- _. discriminate H200. }
  destruct (others (table w) !! k) as [attrs1 |] eqn:Hk1.
  2:{ injection Hc as <- _. discriminate H200. }
  destruct (attrIs "status" "available" attrs1) eqn:Hav.
  2:{ injection Hc as <- _. discriminate H200. }
  injection Hc as <- <-.
  eexists k, attrs, attrs1, _.
  split; [exact Hu |]. split.
  { unfold claimed, reply, json, get, field. cbn [String.eqb Ascii.eqb Bool.eqb].
    apply prop_withKey_instanceId. }
  split; [exact Hk |]. split; [exact Hs |]. split; [exact Hk1 |].
  split; [by apply attrIs_true | reflexivity].
Qed.

Lemma leased_lookups (attrs : gmap string Value) (u : Value) (e : Z) :
  let attrs' := <["leaseExpiry" := VNum e]> (<["userId" := u]> (<["status" := VStr "leased"]> attrs)) in
  attrs' !! "status" = Some (VStr "leased") /\
  attrs' !! "userId" = Some u /\
  attrs' !! "leaseExpiry" = Some (VNum e).
Proof.
  cbn zeta. split; [| split].
  - rewrite !lookup_insert_ne by discriminate. apply lookup_insert_eq.
  - rewrite lookup_insert_ne by discriminate. apply lookup_insert_eq.
  - apply lookup_insert_eq.
Qed.



(** X7. A worker handed out by a claim is not handed out again by the claim
    served right after it: if both are answered 200, they name different
    workers (whatever other requests write between the Scan and the update of
    either claim). *)
Theorem no_double_allocation (T : Z)
    (othersA othersB : gmap string (gmap string Value) -> gmap string (gmap string Value))
    (bodyA bodyB : gmap string Value) (w : World) (respA respB : Response) :
  let rA := claim T othersA bodyA w in
  rA.1 = Ok respA -> statusCode respA = 200 ->
  let rB := claim T othersB bodyB rA.2 in
  rB.1 = Ok respB -> statusCode respB = 200 ->
  get (json respB) "instanceId" <> get (json respA) "instanceId".
Proof.
  intros rA HrA HA rB HrB HB Heq.
  assert (HcA : claim T othersA bodyA w = (Ok respA, rA.2)).
  { subst rA. destruct (claim T _ bodyA w) as [r1 r2]. simpl in HrA |- *. by f_equal. }
  assert (HcB : claim T othersB bodyB rA.2 = (Ok respB, rB.2)).
  { subst rB. destruct (claim T _ bodyB rA.2) as [r1 r2]. simpl in HrB |- *. by f_equal. }
  destruct (claim_200_tables _ _ _ _ _ _ HcA HA)
    as (k & attrs & attrs1 & expiry & _ & Hk & _ & _ & _ & _ & HtbA).
  destruct (claim_200_tables _ _ _ _ _ _ HcB HB)
    as (k' & attrs' & _ & _ & _ & Hk' & Hlk & Hs' & _).
  rewrite Hk, Hk' in Heq. injection Heq as ->.
  rewrite HtbA, lookup_insert_eq in Hlk. injection Hlk as <-.
  destruct (leased_lookups attrs1 (prop bodyA "userId") expiry) as (Hs & _).
  rewrite Hs in Hs'. discriminate Hs'.
Qed.

Lemma no_double_allocation_witness :
  let rA := claim 2 (fun tb => tb) userBody
              (register {[ "instanceId" := VStr "i-0def" ]} registeredWorld).2 in
  let rB := claim 2 (fun tb => tb) rivalBody rA.2 in
  exists respA respB,
    rA.1 = Ok respA /\ rB.1 = Ok respB /\
    get (json respB) "instanceId" <> get (json respA) "instanceId".
Proof.
  intros rA rB.
  destruct rA.1 as [respA |] eqn:HA; [| vm_compute in HA; discriminate HA].
  destruct rB.1 as [respB |] eqn:HB; [| vm_compute in HB; discriminate HB].
  exists respA, respB. split; [reflexivity |]. split; [reflexivity |].
  apply (no_double_allocation 2 (fun tb => tb) (fun tb => tb) userBody rivalBody
           (register {[ "instanceId" := VStr "i-0def" ]} registeredWorld).2 respA respB).
  - exact HA.
  - vm_compute in HA. injection HA as <-. reflexivity.
  - exact HB.
  - vm_compute in HB. injection HB as <-. reflexivity.
Defined.

(** X8. Claim then release is a round trip on the table: when available workers
    carry no lease, releasing the worker a claim has just returned puts the
    table back exactly as it was before the claim. *)
Theorem claim_release_roundtrip (T : Z) (body relBody : gmap string Value) (w : World)
    (resp : Response) :
  leaseClear (table w) ->
  let rC := claim T (fun tb => tb) body w in
  rC.1 = Ok resp -> statusCode resp = 200 ->
  prop relBody "instanceId" = get (json resp) "instanceId" ->
  truthy (prop relBody "instanceId") = true ->
  let rR := release relBody rC.2 in
  rR.1 = Ok (reply 200 [("ok", VBool true); ("message", VStr "released");
                        ("instanceId", get (json resp) "instanceId")]) /\
  table rR.2 = table w.
Proof.
  intros Hinv rC HrC H200 Hid Htr rR.
  assert (HcC : claim T (fun tb => tb) body w = (Ok resp, rC.2)).
  { subst rC. destruct (claim T _ body w) as [r1 r2]. simpl in HrC |- *. by f_equal. }
  destruct (claim_200_tables _ _ _ _ _ _ HcC H200)
    as (k & attrs & attrs1 & expiry & _ & Hk & Hlk & Hs & Hlk1 & _ & Htb).
  rewrite Hlk in Hlk1. injection Hlk1 as <-.
  rewrite Hk in Hid |- *. rewrite Hid in Htr.
  assert (Hne : k <> "") by (intros ->; discriminate Htr).
  subst rR.
  rewrite (release_eval _ _ _ Hid Hne)
    by (rewrite Htb; apply (keyAccepted_present _ k _ (lookup_insert_eq _ _ _))).
  rewrite Htb, lookup_insert_eq.
  cbn [fst snd set_table table default applySet foldl].
  split; [reflexivity |].
  rewrite ?Htb, insert_insert_eq. apply insert_id. rewrite Hlk. f_equal.
  destruct (Hinv k attrs Hlk Hs) as [Hu He]. symmetry. unfold id.
  transitivity (<["leaseExpiry" := VNull]>
                  (<["userId" := VNull]> (<["status" := VStr "available"]> attrs))).
  { attrs_eq. }
  rewrite (insert_id _ "status") by assumption.
  rewrite (insert_id _ "userId") by assumption.
  by rewrite insert_id.
Qed.

Lemma claim_release_roundtrip_witness :
  table (release idBody (claim 2 (fun tb => tb) userBody registeredWorld).2).2 =
  table registeredWorld.
Proof.
  destruct (claim_release_roundtrip 2 userBody idBody registeredWorld
              (claimed (withKey "i-0abc" (registered workerBody 1700000000000))
                       (1700000000002 + LEASE_TTL_MS)))
    as [_ Htb];
    [| reflexivity | reflexivity | reflexivity | reflexivity | exact Htb].
  intros k attrs Hk Hs. unfold registeredWorld in Hk; simpl in Hk.
  rewrite lookup_singleton in Hk. case_decide; [| discriminate].
  injection Hk as <-. split; reflexivity.
Defined.

(** ** How far a scale-out goes, and how long the gate holds *)

(** X9. A call that returns [scaled: true] found a group with a reported
    [MaxSize]; the capacity it sets is at most that maximum and at most
    [desired + missing], and it is above [desired] whenever the group was
    within its maximum.  (Should the service report [desired] above the
    maximum, the capacity set is the maximum, below [desired], and the reply
    still says [scaled: true].) *)
Theorem scale_out_bounds (T : Z) (w : World) (v : Value) :
  (scaleToMeetBuffer T w).1 = Ok v -> get v "scaled" = VBool true ->
  exists g max desiredAfter,
    let desired := nullish (DesiredCapacity g) 0 in
    let missing := T - availableNowAt w in
    asgGroup w = Some g /\ MaxSize g = Some max /\ 0 < missing /\
    get v "desiredBefore" = VNum desired /\
    get v "desiredAfter" = VNum desiredAfter /\
    get v "missing" = VNum missing /\
    asgGroup (scaleToMeetBuffer T w).2 = Some (mkGroup (Some desiredAfter) (Some max)) /\
    desiredAfter <= max /\ desiredAfter <= desired + missing /\
    (desired <= max -> desired < desiredAfter) /\
    (max < desired -> desiredAfter = max).
Proof.
  intros Hv Hs.
  destruct (scale_cases T w)
    as [[_ Hr] | [(_ & _ & Hr) | [(_ & _ & _ & Hr) | [(g & _ & _ & _ & _ & Hr)
       | (g & _ & Hm & Hg & Hne & Hr)]]]];
    rewrite Hr in Hv |- *; cbn [fst snd] in Hv |- *;
    try discriminate Hv; injection Hv as <-; try discriminate Hs.
  destruct (MaxSize g) as [mx |] eqn:Hmx.
  2:{ exfalso. apply Hne. cbn [nullish]. lia. }
  exists g, mx, (Z.min (nullish (DesiredCapacity g) 0 + (T - availableNowAt w)) mx).
  cbn zeta. cbn [nullish] in Hne |- *.
  repeat (split; [first [assumption | reflexivity | lia] |]).
  lia.
Qed.

Lemma scale_out_bounds_witness :
  exists g max desiredAfter,
    asgGroup freshWorld = Some g /\ MaxSize g = Some max /\
    asgGroup (scaleToMeetBuffer 4 freshWorld).2 = Some (mkGroup (Some desiredAfter) (Some max)) /\
    desiredAfter <= max.
Proof.
  destruct (scale_out_bounds 4 freshWorld (scaled_to_meet_buffer 0 4 4 3 5))
    as (g & max & desiredAfter & Hg & Hmx & _ & _ & _ & _ & Hafter & Hle & _);
    [reflexivity | reflexivity |].
  exists g, max, desiredAfter. auto.
Defined.

(** X10. [retryAfterMs] is exactly the time left on the gate: it is positive,
    [t + retryAfterMs = lastScaleOutAt + SCALE_COOLDOWN_MS], a later call
    before that instant is gated again, and a call at or after it (no
    scale-out in between) is not answered [cooldown_active]. *)
Theorem retryAfterMs_exact (T : Z) (w : World) :
  let t := clock w (ticks w) in
  t < lastScaleOutAt w + SCALE_COOLDOWN_MS ->
  exists ms,
    (scaleToMeetBuffer T w).1 = Ok (cooldown_active ms) /\
    0 < ms /\ t + ms = lastScaleOutAt w + SCALE_COOLDOWN_MS /\
    forall w2, lastScaleOutAt w2 = lastScaleOutAt w ->
      let t2 := clock w2 (ticks w2) in
      (t2 < t + ms ->
         (scaleToMeetBuffer T w2).1 = Ok (cooldown_active (t + ms - t2))) /\
      (t + ms <= t2 ->
         forall v, (scaleToMeetBuffer T w2).1 = Ok v ->
                   get v "reason" <> VStr "cooldown_active").
Proof.
  intros t Hlt.
  exists (SCALE_COOLDOWN_MS - (t - lastScaleOutAt w)).
  split; [by rewrite (scale_gated T w Hlt) |].
  split; [lia |]. split; [lia |].
  intros w2 Hlast t2. split.
  - intros Hlt2.
    assert (Hg : clock w2 (ticks w2) < lastScaleOutAt w2 + SCALE_COOLDOWN_MS)
      by (rewrite Hlast; subst t2; lia).
    rewrite (scale_gated T w2 Hg), Hlast. cbn [fst]. do 2 f_equal. subst t2. lia.
  - intros Hge v Hv.
    assert (Hng : lastScaleOutAt w2 + SCALE_COOLDOWN_MS <= clock w2 (ticks w2))
      by (rewrite Hlast; subst t2; lia).
    destruct (scale_cases T w2)
      as [[Hlt2 _] | [(_ & _ & Hr) | [(_ & _ & _ & Hr) | [(g & _ & _ & _ & _ & Hr)
         | (g & _ & _ & _ & _ & Hr)]]]];
      [lia | | | |];
      rewrite Hr in Hv; cbn [fst] in Hv; try discriminate Hv;
      injection Hv as <-; discriminate.
Qed.

Lemma retryAfterMs_exact_witness :
  let w2 := (scaleToMeetBuffer 2 freshWorld).2 in
  exists ms, (scaleToMeetBuffer 2 w2).1 = Ok (cooldown_active ms) /\ 0 < ms.
Proof.
  intros w2.
  destruct (retryAfterMs_exact 2 w2) as (ms & Hr & Hpos & _);
    [vm_compute; reflexivity |].
  exists ms. auto.
Defined.

(** ** The first revision *)

(** X11. [scaleOutByOneIfNeeded] reads no clock and touches neither the table nor
    [lastScaleOutAt].  With no group it throws after the describe; with
    [desired >= max] it returns [{scaled: false, reason: "ASG at max
    capacity", desired, max}] and sets nothing; otherwise it sets the desired
    capacity to [desired + 1], which is within the maximum, and returns
    [{scaled: true, desiredBefore: desired, desiredAfter: desired + 1}]. *)
Theorem scaleOutByOne_decision (w : World) :
  let r := Rev1.scaleOutByOneIfNeeded w in
  table r.2 = table w /\ lastScaleOutAt r.2 = lastScaleOutAt w /\ ticks r.2 = ticks w /\
  match asgGroup w with
  | None =>
      r.1 = Throw (mkExn "Error" ("ASG not found: " ++ ASG_NAME)) /\
      asgSent r.2 = (asgSent w ++ [DescribeAutoScalingGroupsCommand])%list
  | Some g =>
      let desired := nullish (DesiredCapacity g) 0 in
      let max := nullish (MaxSize g) desired in
      (max <= desired ->
         r.1 = Ok (VObj [("scaled", VBool false); ("reason", VStr "ASG at max capacity");
                         ("desired", VNum desired); ("max", VNum max)]) /\
         asgSent r.2 = (asgSent w ++ [DescribeAutoScalingGroupsCommand])%list /\
         asgGroup r.2 = asgGroup w) /\
      (desired < max ->
         r.1 = Ok (VObj [("scaled", VBool true); ("desiredBefore", VNum desired);
                         ("desiredAfter", VNum (desired + 1))]) /\
         asgSent r.2 = (asgSent w ++ [DescribeAutoScalingGroupsCommand;
                                      SetDesiredCapacityCommand (desired + 1)])%list /\
         asgGroup r.2 = Some (mkGroup (Some (desired + 1)) (MaxSize g)) /\
         desired + 1 <= max)
  end.
Proof.
  intros r. subst r. unfold Rev1.scaleOutByOneIfNeeded, bind, DescribeAutoScalingGroups.
  destruct (asgGroup w) as [g |] eqn:Hg.
  2:{ cbn [fst snd throw]. repeat split. }
  cbn zeta.
  destruct (Z.geb_spec (nullish (DesiredCapacity g) 0)
              (nullish (MaxSize g) (nullish (DesiredCapacity g) 0))) as [Hge | Hlt].
  - cbn [fst snd ret]. repeat split; try lia.
    cbn [asgGroup log_asg]. exact Hg.
  - unfold SetDesiredCapacity. cbn [asgGroup log_asg]. rewrite Hg.
    destruct (MaxSize g) as [mx |] eqn:Hmx; cbn [nullish] in Hlt; [| lia].
    destruct (Z.ltb_spec mx (nullish (DesiredCapacity g) 0 + 1)); [lia |].
    cbn [fst snd ret nullish]. repeat split; try lia.
    simpl. by rewrite <- app_assoc.
Qed.

Lemma bind_step {A B} (m : M A) (k : A -> M B) (w w' : World) (a : A) :
  m w = (Ok a, w') -> bind m k w = k a w'.
Proof. intros Hm. unfold bind. by rewrite Hm. Qed.

(** X12. The two revisions of [/claim] give the same answer and the same world
    whenever a worker is claimable: they differ only in how they scale on a
    miss. *)
Theorem revisions_agree_on_candidates (T : Z)
    (others : gmap string (gmap string Value) -> gmap string (gmap string Value))
    (body : gmap string Value) (w w1 : World) (chosen : gmap string Value)
    (rest : list (gmap string Value)) :
  claimable w = (Ok (chosen :: rest), w1) ->
  Rev1.claim others body w = claim T others body w.
Proof.
  intros Hc. unfold Rev1.claim, claim, try_catch.
  destruct (truthy (prop body "userId")); [| reflexivity]. cbn [negb].
  rewrite !(bind_step claimable _ w w1 _ Hc). reflexivity.
Qed.

Lemma revisions_agree_on_candidates_witness :
  Rev1.claim (fun tb => tb) userBody registeredWorld =
  claim 2 (fun tb => tb) userBody registeredWorld.
Proof.
  apply (revisions_agree_on_candidates 2 (fun tb => tb) userBody registeredWorld
           (advance 1 registeredWorld)
           (withKey "i-0abc" (registered workerBody 1700000000000)) []).
  reflexivity.
Defined.

Lemma scaleOutByOne_step (w : World) (d mx : Z) :
  asgGroup w = Some (mkGroup (Some d) (Some mx)) -> d < mx ->
  let r := Rev1.scaleOutByOneIfNeeded w in
  table r.2 = table w /\
  asgGroup r.2 = Some (mkGroup (Some (d + 1)) (Some mx)) /\
  asgSent r.2 = (asgSent w ++ [DescribeAutoScalingGroupsCommand;
                               SetDesiredCapacityCommand (d + 1)])%list.
Proof.
  intros Hg Hlt r. subst r.
  unfold Rev1.scaleOutByOneIfNeeded, bind, DescribeAutoScalingGroups. rewrite Hg.
  cbn [nullish DesiredCapacity MaxSize].
  destruct (Z.geb_spec d mx); [lia |].
  unfold SetDesiredCapacity. cbn [asgGroup log_asg]. rewrite Hg. cbn [MaxSize].
  destruct (Z.ltb_spec mx (d + 1)); [lia |].
  cbn [fst snd ret]. repeat split. simpl. by rewrite <- app_assoc.
Qed.

Lemma rev1_claim_eval_none
    (others : gmap string (gmap string Value) -> gmap string (gmap string Value))
    (body : gmap string Value) (w : World) :
  truthy (prop body "userId") = true ->
  scanned (table w) = [] ->
  let s := Rev1.scaleOutByOneIfNeeded w in
  (Rev1.claim others body w).2 = s.2.
Proof.
  intros Hu Hsc s. subst s. unfold Rev1.claim, try_catch. rewrite Hu. cbn [negb].
  assert (Hc : claimable w = (Ok [], w)).
  { rewrite claimable_eq, Hsc. simpl. by rewrite advance_0. }
  rewrite (bind_step claimable _ w w _ Hc). unfold bind.
  destruct (Rev1.scaleOutByOneIfNeeded w) as [[v | e] w2]; cbn [fst snd]; [reflexivity |].
  destruct (includes (name e) "ConditionalCheckFailed"); reflexivity.
Qed.

Lemma claim_world_none (T : Z)
    (others : gmap string (gmap string Value) -> gmap string (gmap string Value))
    (body : gmap string Value) (w : World) :
  truthy (prop body "userId") = true ->
  scanned (table w) = [] ->
  (claim T others body w).2 = (scaleToMeetBuffer T w).2.
Proof.
  intros Hu Hsc.
  assert (Hkeep : keepFresh (clock w) (ticks w) (scanned (table w)) = [])
    by (by rewrite Hsc).
  rewrite (claim_eval_none T others body w Hu Hkeep). rewrite Hsc. cbn [length].
  rewrite advance_0. destruct (scaleToMeetBuffer T w).1; reflexivity.
Qed.

(** X13. Two misses in a row, with no available worker in the table and room for
    two more instances in the group.  The first revision raises the desired
    capacity on each miss, by one each time.  The second revision raises it
    once, by the whole deficit (capped at the maximum), and the second miss,
    falling inside the cooldown, sends nothing to the Auto Scaling service. *)
Theorem two_misses_in_a_row
    (others : gmap string (gmap string Value) -> gmap string (gmap string Value))
    (body : gmap string Value) (w : World) (d mx : Z) :
  truthy (prop body "userId") = true ->
  scanned (table w) = [] ->
  asgGroup w = Some (mkGroup (Some d) (Some mx)) ->
  d + 2 <= mx ->
  (let w2 := (Rev1.claim others body (Rev1.claim others body w).2).2 in
   asgGroup w2 = Some (mkGroup (Some (d + 2)) (Some mx)) /\
   asgSent w2 =
     (asgSent w ++ [DescribeAutoScalingGroupsCommand; SetDesiredCapacityCommand (d + 1);
                    DescribeAutoScalingGroupsCommand; SetDesiredCapacityCommand (d + 2)])%list) /\
  (forall T, 0 < T ->
     lastScaleOutAt w + SCALE_COOLDOWN_MS <= clock w (ticks w) ->
     clock w (S (ticks w)) < clock w (ticks w) + SCALE_COOLDOWN_MS ->
     let w2 := (claim T others body (claim T others body w).2).2 in
     asgGroup w2 = Some (mkGroup (Some (Z.min (d + T) mx)) (Some mx)) /\
     asgSent w2 =
       (asgSent w ++ [DescribeAutoScalingGroupsCommand;
                      SetDesiredCapacityCommand (Z.min (d + T) mx)])%list).
Proof.
  intros Hu Hsc Hg Hroom. split.
  - intros w2. subst w2.
    pose proof (scaleOutByOne_step w d mx Hg ltac:(lia)) as (Htb1 & Hg1 & Hsent1).
    rewrite (rev1_claim_eval_none others body w Hu Hsc).
    assert (Hsc1 : scanned (table (Rev1.scaleOutByOneIfNeeded w).2) = [])
      by (by rewrite Htb1).
    rewrite (rev1_claim_eval_none others body _ Hu Hsc1).
    pose proof (scaleOutByOne_step _ (d + 1) mx Hg1 ltac:(lia)) as (_ & Hg2 & Hsent2).
    rewrite Hg2, Hsent2, Hsent1. replace (d + 1 + 1) with (d + 2) by lia.
    split; [reflexivity |]. by rewrite <- app_assoc.
  - intros T HT Hge Hlt w2. subst w2.
    rewrite (claim_world_none T others body w Hu Hsc).
    assert (Hav : availableNowAt w = 0) by (unfold availableNowAt; by rewrite Hsc).
    assert (Hm : 0 < T - availableNowAt w) by (rewrite Hav; lia).
    assert (Hne : Z.min (nullish (Some d) 0 + (T - availableNowAt w))
                        (nullish (Some mx) (nullish (Some d) 0)) <> nullish (Some d) 0)
      by (rewrite Hav; cbn [nullish]; lia).
    pose proof (scale_out T w _ Hge Hm Hg Hne) as Hr1.
    rewrite Hav in Hr1. cbn [nullish DesiredCapacity MaxSize] in Hr1.
    replace (T - 0) with T in Hr1 by lia.
    remember ((scaleToMeetBuffer T w).2) as w1 eqn:Hw1.
    rewrite Hr1 in Hw1. cbn [snd] in Hw1.
    assert (Htb1 : table w1 = table w) by (subst w1; reflexivity).
    assert (Hclk : clock w1 = clock w) by (subst w1; reflexivity).
    assert (Htk : ticks w1 = S (ticks w)).
    { subst w1. unfold afterCount. rewrite Hsc. simpl. lia. }
    assert (Hl1 : lastScaleOutAt w1 = clock w (ticks w)) by (subst w1; reflexivity).
    assert (Hg1 : asgGroup w1 = Some (mkGroup (Some (Z.min (d + T) mx)) (Some mx)))
      by (subst w1; reflexivity).
    assert (Hs1 : asgSent w1 =
                  (asgSent w ++ [DescribeAutoScalingGroupsCommand;
                                 SetDesiredCapacityCommand (Z.min (d + T) mx)])%list).
    { subst w1. simpl. by rewrite <- app_assoc. }
    assert (Hsc1 : scanned (table w1) = []) by (by rewrite Htb1).
    rewrite (claim_world_none T others body w1 Hu Hsc1).
    assert (Hgate : clock w1 (ticks w1) < lastScaleOutAt w1 + SCALE_COOLDOWN_MS)
      by (by rewrite Hclk, Htk, Hl1).
    rewrite (scale_gated T w1 Hgate). cbn [snd].
    change (asgGroup (tick w1)) with (asgGroup w1).
    change (asgSent (tick w1)) with (asgSent w1).
    by rewrite Hg1, Hs1.
Qed.

Lemma two_misses_in_a_row_witness :
  asgGroup (Rev1.claim (fun tb => tb) userBody
              (Rev1.claim (fun tb => tb) userBody freshWorld).2).2 =
    Some (mkGroup (Some 5) (Some 5)) /\
  asgSent (claim 2 (fun tb => tb) userBody
             (claim 2 (fun tb => tb) userBody freshWorld).2).2 =
    [DescribeAutoScalingGroupsCommand; SetDesiredCapacityCommand 5].
Proof.
  destruct (two_misses_in_a_row (fun tb => tb) userBody freshWorld 3 5)
    as [Hrev1 Hrev2]; [reflexivity | reflexivity | reflexivity | lia |].
  split.
  - apply Hrev1.
  - apply (Hrev2 2); [lia | vm_compute; discriminate | vm_compute; reflexivity].
Defined.

(** ** What every sequence of requests keeps true *)

Lemma scale_frame (T : Z) (w : World) :
  let w' := (scaleToMeetBuffer T w).2 in
  clock w' = clock w /\ (ticks w <= ticks w')%nat /\ table w' = table w.
Proof.
  intros w'. subst w'.
  destruct (scale_cases T w)
    as [[_ Hr] | [(_ & _ & Hr) | [(_ & _ & _ & Hr) | [(g & _ & _ & _ & _ & Hr)
       | (g & _ & _ & _ & _ & Hr)]]]];
    rewrite Hr; cbn [snd]; (split; [reflexivity |]); (split; [simpl; lia | reflexivity]).
Qed.

(** One request either leaves the table as it is or rewrites one record, in
    one of four ways. *)
Lemma serve_step (T : Z) (route : Route) (body : gmap string Value) (w : World) :
  let w' := (serve T route body w).2 in
  clock w' = clock w /\ (ticks w <= ticks w')%nat /\
  (table w' = table w \/
   exists k attrs', table w' = <[k := attrs']> (table w) /\
     ((attrs' = registered body (clock w (ticks w)) /\ (ticks w < ticks w')%nat)
      \/ (attrs' = <["lastHeartbeat" := VNum (clock w (ticks w))]> (default ∅ (table w !! k)) /\
          (ticks w < ticks w')%nat)
      \/ attrs' = <["leaseExpiry" := VNull]>
                    (<["userId" := VNull]>
                       (<["status" := VStr "available"]> (default ∅ (table w !! k))))
      \/ exists attrs i,
           table w !! k = Some attrs /\ attrs !! "status" = Some (VStr "available") /\
           truthy (prop body "userId") = true /\ (i < ticks w')%nat /\
           attrs' = <["leaseExpiry" := VNum (clock w i + LEASE_TTL_MS)]>
                      (<["userId" := prop body "userId"]>
                         (<["status" := VStr "leased"]> attrs)))).
Proof.
  intros w'. subst w'. destruct route; cbn [serve].
  - unfold register, try_catch.
    destruct (truthy (prop body "instanceId")); cbn [negb];
      [| cbn [ret snd]; split; [reflexivity |]; split; [lia | by left]].
    unfold bind, now, ret.
    put_cases k; cbn [fst snd];
      [split; [reflexivity |]; split; [simpl; lia | by left] |].
    split; [reflexivity |]. split; [simpl; lia |].
    right. exists k, (registered body (clock w (ticks w))).
    split; [reflexivity |]. left. split; [reflexivity | simpl; lia].
  - unfold heartbeat, try_catch.
    destruct (truthy (prop body "instanceId")); cbn [negb];
      [| cbn [ret snd]; split; [reflexivity |]; split; [lia | by left]].
    unfold bind, now, ret.
    update_cases k; cbn [fst snd];
      [split; [reflexivity |]; split; [simpl; lia | by left] |].
    split; [reflexivity |]. split; [simpl; lia |].
    right. eexists k, _. split; [reflexivity |]. right; left.
    split; [reflexivity | simpl; lia].
  - destruct (truthy (prop body "userId")) eqn:Hu.
    2:{ unfold claim, try_catch. rewrite Hu. cbn [negb ret snd].
        split; [reflexivity |]. split; [lia | by left]. }
    destruct (keepFresh (clock w) (ticks w) (scanned (table w))) as [| chosen rest] eqn:Hkeep.
    + assert (Hw : (claim T (fun tb => tb) body w).2 =
                   (scaleToMeetBuffer T (advance (length (scanned (table w))) w)).2).
      { rewrite (claim_eval_none T _ body w Hu Hkeep).
        destruct (scaleToMeetBuffer T _).1; reflexivity. }
      rewrite Hw.
      destruct (scale_frame T (advance (length (scanned (table w))) w)) as (Hc & Ht & Htb).
      split; [exact Hc |]. split; [simpl in Ht; lia | left; exact Htb].
    + destruct (chosen_has_key _ _ _ _ _ Hkeep) as (k & attrs & Hk & Hs & ->).
      rewrite (claim_eval_chosen T _ body w _ rest k Hu Hkeep
                 (prop_withKey_instanceId k attrs)).
      destruct (_ && _);
        [| cbn [snd]; split; [reflexivity |]; split; [simpl; lia | by left]].
      rewrite Hk. replace (attrIs "status" "available" attrs) with true
        by (symmetry; by apply attrIs_true).
      cbn [snd]. split; [reflexivity |]. split; [simpl; lia |].
      right. eexists k, _. split; [reflexivity |]. do 3 right.
      exists attrs, (ticks w + length (scanned (table w)))%nat.
      split; [exact Hk |]. split; [exact Hs |]. split; [reflexivity |].
      split; [simpl; lia | reflexivity].
  - unfold release, try_catch.
    destruct (truthy (prop body "instanceId")); cbn [negb];
      [| cbn [ret snd]; split; [reflexivity |]; split; [lia | by left]].
    unfold bind, ret.
    update_cases k; cbn [fst snd];
      [split; [reflexivity |]; split; [simpl; lia | by left] |].
    split; [reflexivity |]. split; [simpl; lia |].
    right. eexists k, _. split; [reflexivity |]. right; right; left. reflexivity.
  - cbn [health ret snd]. split; [reflexivity |]. split; [lia | by left].
Qed.

Lemma leaseConsistent_heartbeat (attrs : gmap string Value) (v : Value) :
  leaseConsistent attrs -> leaseConsistent (<["lastHeartbeat" := v]> attrs).
Proof.
  unfold leaseConsistent. by rewrite !lookup_insert_ne by discriminate.
Qed.

Lemma leaseConsistent_step (T : Z) (route : Route) (body : gmap string Value) (w : World) :
  allRecords leaseConsistent (table w) ->
  allRecords leaseConsistent (table (serve T route body w).2).
Proof.
  intros Hinv.
  destruct (serve_step T route body w) as (_ & _ & [Htb | (k & attrs' & Htb & Hcase)]);
    rewrite Htb; [exact Hinv |].
  intros k0 a Hk0. rewrite lookup_insert in Hk0. case_decide; [| by eapply Hinv].
  injection Hk0 as <-.
  destruct Hcase as [[-> _] | [[-> _] | [-> | (attrs & i & Hk & Hs & Hu & _ & ->)]]].
  - left. repeat split.
  - apply leaseConsistent_heartbeat.
    destruct (table w !! k) as [a0 |] eqn:Hk; cbn [default]; [by eapply Hinv |].
    right; right. by rewrite !lookup_empty.
  - left. split; [| split].
    + rewrite !lookup_insert_ne by discriminate. apply lookup_insert_eq.
    + rewrite lookup_insert_ne by discriminate. apply lookup_insert_eq.
    + apply lookup_insert_eq.
  - right; left.
    destruct (leased_lookups attrs (prop body "userId") (clock w i + LEASE_TTL_MS))
      as (H1 & H2 & H3).
    split; [exact H1 |]. eauto.
Qed.

(** X14. Whatever requests are served, one after the other, the lease fields of
    every record keep agreeing with its status: [available] with [userId] and
    [leaseExpiry] both [null], [leased] with a truthy [userId] and a number as
    [leaseExpiry], or no status and neither field. *)
Theorem lease_fields_follow_status (T : Z) (reqs : list (Route * gmap string Value))
    (w : World) :
  allRecords leaseConsistent (table w) ->
  allRecords leaseConsistent (table (serveAll T reqs w)).
Proof.
  revert w. induction reqs as [| [route body] rest IH]; intros w Hinv; cbn [serveAll].
  - exact Hinv.
  - apply IH. by apply leaseConsistent_step.
Qed.

Lemma lease_fields_follow_status_witness :
  allRecords leaseConsistent
    (table (serveAll 2 [(PostHeartbeat, {[ "instanceId" := VStr "i-0def" ]});
                        (PostRegister, workerBody); (PostClaim, userBody);
                        (PostClaim, rivalBody); (PostRelease, idBody)] freshWorld)).
Proof.
  apply lease_fields_follow_status.
  intros k attrs Hk.
  assert (He : table freshWorld !! k = None) by apply lookup_empty. congruence.
Defined.

Lemma timestamped_mono (w w' : World) (attrs : gmap string Value) :
  clock w' = clock w -> (ticks w <= ticks w')%nat ->
  timestamped w attrs -> timestamped w' attrs.
Proof.
  intros Hc Ht [Hhb Hle]. split.
  - intros v Hv. destruct (Hhb v Hv) as (i & Hi & ->).
    exists i. rewrite Hc. split; [lia | reflexivity].
  - intros v Hv. destruct (Hle v Hv) as [-> | (i & Hi & ->)]; [by left |].
    right. exists i. rewrite Hc. split; [lia | reflexivity].
Qed.

Lemma timestamped_step (T : Z) (route : Route) (body : gmap string Value) (w : World) :
  allRecords (timestamped w) (table w) ->
  allRecords (timestamped (serve T route body w).2) (table (serve T route body w).2).
Proof.
  intros Hinv.
  destruct (serve_step T route body w) as (Hc & Ht & Hcases).
  set (w' := (serve T route body w).2) in *.
  assert (Hold : forall k a, table w !! k = Some a -> timestamped w' a).
  { intros k a Hk. apply (timestamped_mono w); auto. by eapply Hinv. }
  destruct Hcases as [Htb | (k & attrs' & Htb & Hcase)]; rewrite Htb; [exact Hold |].
  intros k0 a Hk0. rewrite lookup_insert in Hk0. case_decide; [| by eapply Hold].
  injection Hk0 as <-.
  assert (Hprev : timestamped w' (default ∅ (table w !! k))).
  { destruct (table w !! k) as [a0 |] eqn:Hk; cbn [default]; [by eapply Hold |].
    split; intros v Hv; rewrite lookup_empty in Hv; discriminate Hv. }
  destruct Hcase as [[-> Hlt] | [[-> Hlt] | [-> | (attrs & i & Hk & Hs & Hu & Hi & ->)]]].
  - split; intros v Hv.
    + change (Some (VNum (clock w (ticks w))) = Some v) in Hv. injection Hv as <-.
      exists (ticks w). rewrite Hc. auto.
    + change (Some VNull = Some v) in Hv. injection Hv as <-. by left.
  - destruct Hprev as [_ Hle]. split; intros v Hv.
    + rewrite lookup_insert_eq in Hv. injection Hv as <-.
      exists (ticks w). rewrite Hc. auto.
    + rewrite lookup_insert_ne in Hv by discriminate. auto.
  - destruct Hprev as [Hhb _]. split; intros v Hv.
    + rewrite !lookup_insert_ne in Hv by discriminate. auto.
    + rewrite lookup_insert_eq in Hv. injection Hv as <-. by left.
  - destruct (Hold k attrs Hk) as [Hhb _]. split; intros v Hv.
    + rewrite !lookup_insert_ne in Hv by discriminate. auto.
    + rewrite lookup_insert_eq in Hv. injection Hv as <-.
      right. exists i. rewrite Hc. auto.
Qed.

(** X15. Whatever requests are served, one after the other, every time stamp in
    the table is one the clock has given: [lastHeartbeat], when present, is
    an earlier reading of [Date.now()], and [leaseExpiry], when not [null],
    is an earlier reading plus [LEASE_TTL_MS].  So [m.lastHeartbeat || 0] is
    always a number when the staleness filter looks at a record. *)
Theorem timestamps_are_clock_readings (T : Z) (reqs : list (Route * gmap string Value))
    (w : World) :
  allRecords (timestamped w) (table w) ->
  let w' := serveAll T reqs w in
  allRecords (timestamped w') (table w') /\
  (forall k attrs, table w' !! k = Some attrs ->
     exists hb, orElse (prop attrs "lastHeartbeat") (VNum 0) = VNum hb).
Proof.
  intros Hinv w'.
  assert (Hall : allRecords (timestamped w') (table w')).
  { subst w'. revert w Hinv.
    induction reqs as [| [route body] rest IH]; intros w Hinv; cbn [serveAll].
    - exact Hinv.
    - apply IH. by apply timestamped_step. }
  split; [exact Hall |].
  intros k attrs Hk. destruct (Hall k attrs Hk) as [Hhb _].
  unfold prop. destruct (attrs !! "lastHeartbeat") as [v |] eqn:Hv; cbn [default].
  - destruct (Hhb v eq_refl) as (i & _ & ->). eexists. apply orElse_num.
  - exists 0. reflexivity.
Qed.

Lemma timestamps_are_clock_readings_witness :
  let w' := serveAll 2 [(PostRegister, workerBody); (PostClaim, userBody);
                        (PostHeartbeat, idBody)] freshWorld in
  exists attrs hb,
    table w' !! "i-0abc" = Some attrs /\
    orElse (prop attrs "lastHeartbeat") (VNum 0) = VNum hb.
Proof.
  intros w'.
  destruct (timestamps_are_clock_readings 2
              [(PostRegister, workerBody); (PostClaim, userBody);
               (PostHeartbeat, idBody)] freshWorld) as [_ Hnum].
  - intros k attrs Hk.
    assert (He : table freshWorld !! k = None) by apply lookup_empty. congruence.
  - fold w' in Hnum.
    destruct (table w' !! "i-0abc") as [attrs |] eqn:Hk;
      [| vm_compute in Hk; discriminate Hk].
    destruct (Hnum "i-0abc" attrs Hk) as [hb Hhb]. exists attrs, hb. auto.
Defined.

Lemma lastHeartbeat_step (T : Z) (route : Route) (body : gmap string Value) (w : World)
    (k : string) (attrs : gmap string Value) (hb : Z) :
  (forall i j, (i <= j)%nat -> clock w i <= clock w j) ->
  allRecords (timestamped w) (table w) ->
  table w !! k = Some attrs -> attrs !! "lastHeartbeat" = Some (VNum hb) ->
  exists attrs' hb',
    table (serve T route body w).2 !! k = Some attrs' /\
    attrs' !! "lastHeartbeat" = Some (VNum hb') /\ hb <= hb'.
Proof.
  intros Hmono Hinv Hk Hhb.
  destruct (serve_step T route body w) as (_ & _ & [Htb | (k0 & attrs' & Htb & Hcase)]);
    rewrite Htb.
  { exists attrs, hb. split; [exact Hk |]. split; [exact Hhb | lia]. }
  rewrite lookup_insert. case_decide; [subst k0 |].
  2:{ exists attrs, hb. split; [exact Hk |]. split; [exact Hhb | lia]. }
  destruct (Hinv k attrs Hk) as [Hread _].
  destruct (Hread _ Hhb) as (i & Hi & [= ->]).
  rewrite Hk in Hcase. cbn [default] in Hcase.
  destruct Hcase as [[-> _] | [[-> _] | [-> | (attrs0 & j & Hk0 & _ & _ & _ & ->)]]].
  - eexists _, (clock w (ticks w)). split; [reflexivity |]. split; [reflexivity |].
    apply Hmono. lia.
  - eexists _, (clock w (ticks w)). split; [reflexivity |].
    split; [apply lookup_insert_eq |]. apply Hmono. lia.
  - eexists _, (clock w i). split; [reflexivity |].
    split; [by rewrite !lookup_insert_ne by discriminate | lia].
  - injection Hk0 as <-. eexists _, (clock w i). split; [reflexivity |].
    split; [by rewrite !lookup_insert_ne by discriminate | lia].
Qed.

(** X16. With a clock that does not go backwards, no sequence of requests removes
    a worker's record or moves its [lastHeartbeat] back: a record that has a
    heartbeat stamp still exists afterwards, with a stamp at least as
    late. *)
Theorem lastHeartbeat_never_goes_back (T : Z) (reqs : list (Route * gmap string Value))
    (w : World) (k : string) (attrs : gmap string Value) (hb : Z) :
  (forall i j, (i <= j)%nat -> clock w i <= clock w j) ->
  allRecords (timestamped w) (table w) ->
  table w !! k = Some attrs -> attrs !! "lastHeartbeat" = Some (VNum hb) ->
  exists attrs' hb',
    table (serveAll T reqs w) !! k = Some attrs' /\
    attrs' !! "lastHeartbeat" = Some (VNum hb') /\ hb <= hb'.
Proof.
  revert w attrs hb.
  induction reqs as [| [route body] rest IH]; intros w attrs hb Hmono Hinv Hk Hhb;
    cbn [serveAll].
  - exists attrs, hb. split; [exact Hk |]. split; [exact Hhb | lia].
  - destruct (lastHeartbeat_step T route body w k attrs hb Hmono Hinv Hk Hhb)
      as (attrs1 & hb1 & Hk1 & Hhb1 & Hle1).
    destruct (serve_step T route body w) as (Hc & _ & _).
    destruct (IH (serve T route body w).2 attrs1 hb1) as (attrs2 & hb2 & Hk2 & Hhb2 & Hle2).
    + rewrite Hc. exact Hmono.
    + by apply timestamped_step.
    + exact Hk1.
    + exact Hhb1.
    + exists attrs2, hb2. split; [exact Hk2 |]. split; [exact Hhb2 | lia].
Qed.

Lemma lastHeartbeat_never_goes_back_witness :
  exists attrs' hb',
    table (serveAll 2 [(PostClaim, userBody); (PostHeartbeat, idBody);
                       (PostRelease, idBody)] registeredWorld) !! "i-0abc" = Some attrs' /\
    attrs' !! "lastHeartbeat" = Some (VNum hb') /\ 1700000000000 <= hb'.
Proof.
  apply (lastHeartbeat_never_goes_back 2 _ registeredWorld "i-0abc"
           (registered workerBody 1700000000000) 1700000000000).
  - intros i j Hij. unfold registeredWorld, sampleClock; simpl. lia.
  - intros k attrs Hk. unfold registeredWorld in Hk; simpl in Hk.
    rewrite lookup_singleton in Hk. case_decide; [| discriminate].
    injection Hk as <-. split; intros v Hv.
    + change (Some (VNum 1700000000000) = Some v) in Hv. injection Hv as <-.
      exists 0%nat. split; [simpl; lia | reflexivity].
    + change (Some VNull = Some v) in Hv. injection Hv as <-. by left.
  - reflexivity.
  - reflexivity.
Defined.

(** X17. A lease never lapses by itself: a worker whose status is ["leased"] is
    no claim candidate and is never returned by a claim, whatever its
    [leaseExpiry] and whatever the clock reads. *)
Theorem leased_worker_never_claimed (T : Z)
    (others : gmap string (gmap string Value) -> gmap string (gmap string Value))
    (body : gmap string Value) (w : World) (k : string) (attrs : gmap string Value) :
  table w !! k = Some attrs -> attrs !! "status" = Some (VStr "leased") ->
  (forall healthy w1 m,
     claimable w = (Ok healthy, w1) -> m ∈ healthy -> prop m "instanceId" <> VStr k) /\
  (forall resp,
     (claim T others body w).1 = Ok resp -> statusCode resp = 200 ->
     get (json resp) "instanceId" <> VStr k).
Proof.
  intros Hk Hs. split.
  - intros healthy w1 m Hc Hm Hid.
    rewrite claimable_eq in Hc. injection Hc as <- _.
    apply keepFresh_sublist, elem_of_scanned in Hm as (k' & attrs' & Hk' & Hs' & ->).
    rewrite prop_withKey_instanceId in Hid. injection Hid as ->. congruence.
  - intros resp Hr H200 Hid.
    assert (Hc : claim T others body w = (Ok resp, (claim T others body w).2)).
    { destruct (claim T others body w) as [r1 r2]. simpl in Hr |- *. by f_equal. }
    destruct (claim_200_tables _ _ _ _ _ _ Hc H200)
      as (k' & attrs' & _ & _ & _ & Hk' & Hlk & Hs' & _).
    rewrite Hk' in Hid. injection Hid as ->. congruence.
Qed.

Lemma leased_worker_never_claimed_witness :
  ~ exists resp,
      (claim 2 (fun tb => tb) rivalBody
         (mkWorld {[ "i-0abc" := leasedAttrs ]} (Some (mkGroup (Some 3) (Some 5))) []
                  0 (fun n => 1800000000000 + Z.of_nat n) 0)).1 = Ok resp /\
      statusCode resp = 200 /\
      get (json resp) "instanceId" = VStr "i-0abc".
Proof.
  intros (resp & Hr & H200 & Hid).
  destruct (leased_worker_never_claimed 2 (fun tb => tb) rivalBody
              (mkWorld {[ "i-0abc" := leasedAttrs ]} (Some (mkGroup (Some 3) (Some 5))) []
                       0 (fun n => 1800000000000 + Z.of_nat n) 0)
              "i-0abc" leasedAttrs) as [_ Hnever]; [reflexivity | reflexivity |].
  exact (Hnever resp Hr H200 Hid).
Defined.

(** ** Requests that fail *)








(** ** The worker agent *)

Section AgentFacts.

Import Worker.

Variable BACKEND_URL : string.
Variable trim : string -> string.

Lemma heartbeatLoop_S (fuel : nat) (id : string) (net : list NetResult)
    (tr : list Action) :
  let post := HttpPost (BACKEND_URL ++ "/heartbeat") {[ "instanceId" := VStr id ]} in
  heartbeatLoop BACKEND_URL (S fuel) id (mkRun net tr) =
  match net with
  | [] => (Awaiting, mkRun [] (tr ++ [post]))
  | Resolved _ _ :: rest =>
      heartbeatLoop BACKEND_URL fuel id (mkRun rest ((tr ++ [post]) ++ [Sleep 15000]))
  | Rejected m :: rest => (Raised m, mkRun rest (tr ++ [post]))
  end.
Proof. destruct net as [| [status data | m] rest]; reflexivity. Qed.

Lemma heartbeatLoop_end (fuel : nat) (id : string) (r : Run) :
  (length (inbox r) < fuel)%nat ->
  let out := heartbeatLoop BACKEND_URL fuel id r in
  (out.1 = Awaiting /\ inbox out.2 = []) \/
  (exists m, out.1 = Raised m /\ (length (inbox out.2) < length (inbox r))%nat).
Proof.
  revert r. induction fuel as [| fuel IH]; intros [net tr] Hlt; cbn [inbox] in Hlt; [lia |].
  cbn zeta. rewrite heartbeatLoop_S.
  destruct net as [| [status data | m] rest]; cbn [fst snd inbox length] in *.
  - left. auto.
  - destruct (IH (mkRun rest ((tr ++ [HttpPost (BACKEND_URL ++ "/heartbeat")
                                        {[ "instanceId" := VStr id ]}]) ++ [Sleep 15000]))
                 ltac:(cbn [inbox]; lia)) as [Hend | (m & Hm & Hlen)].
    + left. exact Hend.
    + right. exists m. split; [exact Hm |]. cbn [inbox] in Hlen. lia.
  - right. exists m. split; [reflexivity | lia].
Qed.

Lemma attempt_end (fuel : nat) (r : Run) :
  (length (inbox r) < S fuel)%nat ->
  let out := attempt BACKEND_URL trim fuel r in
  (out.1 = Awaiting /\ inbox out.2 = []) \/
  (out.1 = Done tt /\ (length (inbox out.2) < length (inbox r))%nat).
Proof.
  destruct r as [net tr]. cbn [inbox]. intros Hlt. cbn zeta.
  unfold attempt, try_catch, getMetadata, httpGet, httpPost, sleep.
  unfold bind, request, emit, ret. cbn [inbox trace].
  destruct net as [| [s1 d1 | m1] net]; cbn [fst snd inbox trace length] in *;
    [left; split; reflexivity | | right; split; [reflexivity | lia]].
  destruct net as [| [s2 d2 | m2] net]; cbn [fst snd inbox trace length] in *;
    [left; split; reflexivity | | right; split; [reflexivity | lia]].
  destruct net as [| [s3 d3 | m3] net]; cbn [fst snd inbox trace length] in *;
    [left; split; reflexivity | | ];
    (destruct net as [| [s4 d4 | m4] net]; cbn [fst snd inbox trace length] in *;
     [left; split; reflexivity | | right; split; [reflexivity | lia]]).
  all: match goal with
       | |- context [heartbeatLoop _ ?f ?id ?r0] =>
           destruct (heartbeatLoop_end f id r0 ltac:(cbn [inbox]; lia))
             as [[Ha Hi] | (m & Hm & Hlen)];
           destruct (heartbeatLoop BACKEND_URL f id r0) as [st r1];
           cbn [fst snd inbox] in *; subst st
       end.
  all: cbn [fst snd inbox length] in *;
    first [ left; split; [reflexivity | assumption]
          | right; split; [reflexivity | lia] ].
Qed.

Lemma mainLoop_end (fuel : nat) (r : Run) :
  (length (inbox r) < fuel)%nat ->
  (mainLoop BACKEND_URL trim fuel r).1 = Awaiting /\
  inbox (mainLoop BACKEND_URL trim fuel r).2 = [].
Proof.
  revert r. induction fuel as [| fuel IH]; intros r Hlt; [lia |].
  cbn [mainLoop]. unfold bind.
  destruct (attempt_end fuel r Hlt) as [[Ha Hi] | [Hd Hlen]];
    destruct (attempt BACKEND_URL trim fuel r) as [st r1];
    cbn [fst snd] in *; subst st.
  - auto.
  - apply IH. lia.
Qed.

(** X18. Whatever the network replies, the agent neither returns nor crashes: a
    run over any finite list of replies uses all of them and ends waiting for
    the reply to its next request (the fuel of the embedding is never the
    reason it stops). *)
Theorem main_never_stops (net : list NetResult) :
  (main BACKEND_URL trim net).1 = Awaiting /\
  inbox (main BACKEND_URL trim net).2 = [].
Proof. unfold main. apply mainLoop_end. cbn [inbox]. lia. Qed.

Lemma heartbeatLoop_script (fuel : nat) (id : string) (net : list NetResult)
    (tr : list Action) :
  (length net < fuel)%nat ->
  let out := heartbeatLoop BACKEND_URL fuel id (mkRun net tr) in
  let full :=
    (tr ++ heartbeatPost BACKEND_URL id :: script BACKEND_URL trim (ForHeartbeat id) net)%list in
  (out.1 = Awaiting /\ trace out.2 = full) \/
  (exists m, out.1 = Raised m /\
     full = (trace out.2 ++
             ConsoleError "Agent error:" m :: Sleep 5000 :: metadataGet "instance-id" ::
             script BACKEND_URL trim ForInstanceId (inbox out.2))%list).
Proof.
  revert net tr. induction fuel as [| fuel IH]; intros net tr Hlt; [cbn in Hlt; lia |].
  cbn zeta. rewrite heartbeatLoop_S.
  destruct net as [| [status data | m] rest]; cbn [fst snd inbox trace length script react] in *.
  - left. split; reflexivity.
  - destruct (IH rest ((tr ++ [heartbeatPost BACKEND_URL id]) ++ [Sleep 15000])%list
                 ltac:(lia)) as [[Ha Ht] | (m & Hm & Hfull)];
      unfold heartbeatPost in *.
    + left. split; [exact Ha |]. rewrite Ht. by rewrite <- !app_assoc.
    + right. exists m. split; [exact Hm |]. rewrite <- Hfull. by rewrite <- !app_assoc.
  - right. exists m. split; [reflexivity |]. by rewrite <- !app_assoc.
Qed.

Lemma attempt_script (fuel : nat) (net : list NetResult) (tr : list Action) :
  (length net < S fuel)%nat ->
  let out := attempt BACKEND_URL trim fuel (mkRun net tr) in
  let full :=
    (tr ++ metadataGet "instance-id" :: script BACKEND_URL trim ForInstanceId net)%list in
  (out.1 = Awaiting /\ trace out.2 = full) \/
  (out.1 = Done tt /\
   full = (trace out.2 ++
           metadataGet "instance-id" :: script BACKEND_URL trim ForInstanceId (inbox out.2))%list).
Proof.
  intros Hlt. cbn zeta.
  unfold attempt, try_catch, getMetadata, httpGet, httpPost, sleep.
  unfold bind, request, emit, ret. cbn [inbox trace].
  destruct net as [| [s1 d1 | m1] net];
    cbn [fst snd inbox trace length script react] in *;
    [left; split; reflexivity | | right; split; [reflexivity | by rewrite <- !app_assoc]].
  destruct net as [| [s2 d2 | m2] net];
    cbn [fst snd inbox trace length script react] in *;
    [left; split; [reflexivity | by rewrite <- !app_assoc] |
     | right; split; [reflexivity | by rewrite <- !app_assoc]].
  destruct net as [| [s3 d3 | m3] net];
    cbn [fst snd inbox trace length script react] in *;
    [left; split; [reflexivity | by rewrite <- !app_assoc] | | ];
    (destruct net as [| [s4 d4 | m4] net];
     cbn [fst snd inbox trace length script react] in *;
     [left; split; [reflexivity | by rewrite <- !app_assoc] |
      | right; split; [reflexivity | by rewrite <- !app_assoc]]).
  all: match goal with
       | |- context [heartbeatLoop _ ?f ?id (mkRun ?n ?t)] =>
           destruct (heartbeatLoop_script f id n t ltac:(lia))
             as [[Ha Ht] | (m & Hm & Hfull)];
           destruct (heartbeatLoop BACKEND_URL f id (mkRun n t)) as [st r1];
           cbn [fst snd inbox trace] in *; subst st
       end.
  all: cbn [fst snd inbox trace length] in *.
  all: first [ left; split; [reflexivity |]; rewrite Ht
             | right; split; [reflexivity |]; rewrite <- !app_assoc; cbn [app];
               rewrite <- Hfull ].
  all: rewrite <- ?app_assoc; reflexivity.
Qed.

Lemma mainLoop_script (fuel : nat) (r : Run) :
  (length (inbox r) < fuel)%nat ->
  trace (mainLoop BACKEND_URL trim fuel r).2 =
  (trace r ++ metadataGet "instance-id" ::
   script BACKEND_URL trim ForInstanceId (inbox r))%list.
Proof.
  revert r. induction fuel as [| fuel IH]; intros [net tr] Hlt; cbn [inbox trace] in *;
    [lia |].
  cbn [mainLoop]. unfold bind.
  destruct (attempt_script fuel net tr Hlt) as [[Ha Ht] | [Hd Hfull]];
    destruct (attempt_end fuel (mkRun net tr) Hlt) as [[Ha' Hi] | [Hd' Hlen]];
    destruct (attempt BACKEND_URL trim fuel (mkRun net tr)) as [st r1];
    cbn [fst snd inbox] in *; subst st; try discriminate.
  - exact Ht.
  - rewrite Hfull. apply IH. lia.
Qed.

(** X19. The actions of any run are exactly those of the protocol run over
    the same replies.  The run opens with the [instance-id] fetch; its reply,
    trimmed, is the [instanceId] of everything that follows: the [local-ipv4]
    fetch, the [public-ipv4] fetch, the [/register] post (which also carries
    the trimmed [local-ipv4] reply and the trimmed [public-ipv4] reply, or
    [null] when that fetch failed), the log line, then the [/heartbeat]
    posts, with a 15 s sleep after each one that is answered.  Any other
    request that fails is followed by the error log with the failure's
    message, a 5 s sleep and a start from the [instance-id] fetch. *)
Theorem main_follows_protocol (net : list NetResult) :
  trace (main BACKEND_URL trim net).2 =
  metadataGet "instance-id" :: script BACKEND_URL trim ForInstanceId net.
Proof.
  unfold main. rewrite mainLoop_script by (cbn [inbox]; lia). reflexivity.
Qed.

Lemma extends_ret {A} (a : A) : extends (ret a).
Proof. intros r. exists []. cbn. by rewrite app_nil_r. Qed.

Lemma extends_emit (a : Action) : extends (emit a).
Proof. intros r. exists [a]. reflexivity. Qed.

Lemma extends_request (a : Action) : extends (request a).
Proof.
  intros [net tr]. exists [a]. unfold request. cbn [inbox trace].
  destruct net as [| [status data | m] rest]; reflexivity.
Qed.

Lemma extends_bind {A B} (m : Agent A) (k : A -> Agent B) :
  extends m -> (forall a, extends (k a)) -> extends (bind m k).
Proof.
  intros Hm Hk r. destruct (Hm r) as [added1 H1]. unfold bind.
  destruct (m r) as [[a | e | |] r1]; cbn [snd] in *; try (exists added1; exact H1).
  destruct (Hk a r1) as [added2 H2]. exists (added1 ++ added2)%list.
  by rewrite H2, H1, app_assoc.
Qed.

Lemma extends_try_catch {A} (body : Agent A) (handler : string -> Agent A) :
  extends body -> (forall e, extends (handler e)) -> extends (try_catch body handler).
Proof.
  intros Hb Hh r. destruct (Hb r) as [added1 H1]. unfold try_catch.
  destruct (body r) as [[a | e | |] r1]; cbn [snd] in *; try (exists added1; exact H1).
  destruct (Hh e r1) as [added2 H2]. exists (added1 ++ added2)%list.
  by rewrite H2, H1, app_assoc.
Qed.

Lemma extends_heartbeatLoop (fuel : nat) (id : string) :
  extends (heartbeatLoop BACKEND_URL fuel id).
Proof.
  induction fuel as [| fuel IH]; cbn [heartbeatLoop].
  - intros r. exists []. cbn. by rewrite app_nil_r.
  - apply extends_bind; [apply extends_request |]. intros _.
    apply extends_bind; [apply extends_emit |]. intros _. exact IH.
Qed.

Lemma extends_attempt (fuel : nat) : extends (attempt BACKEND_URL trim fuel).
Proof.
  unfold attempt, getMetadata, httpGet, httpPost, sleep.
  repeat first [ apply extends_try_catch | apply extends_bind | intros ?
               | apply extends_request | apply extends_emit | apply extends_ret
               | apply extends_heartbeatLoop ].
Qed.

Lemma extends_mainLoop (fuel : nat) : extends (mainLoop BACKEND_URL trim fuel).
Proof.
  induction fuel as [| fuel IH]; cbn [mainLoop].
  - intros r. exists []. cbn. by rewrite app_nil_r.
  - apply extends_bind; [apply extends_attempt |]. intros _. exact IH.
Qed.

(** X20. The agent never looks at an HTTP status.  When the first four requests
    are answered (the third, for [public-ipv4], answered or rejected), the
    run starts with the three fetches, the [/register] post carrying the
    trimmed response bodies as [instanceId] and [privateIp], the log line and
    the first [/heartbeat] post, whatever the statuses of the metadata
    responses and of the [/register] response.  [publicIp] is [null] only
    when its fetch is rejected; a response with any status, an error page
    included, is taken as the address. *)
Theorem boot_ignores_statuses (s1 s2 s4 : Z) (d1 d2 d4 : string) (third : NetResult)
    (rest : list NetResult) :
  let id := trim d1 in
  let publicIp :=
    match third with
    | Resolved _ d3 => VStr (trim d3)
    | Rejected _ => VNull
    end in
  exists later,
    trace (main BACKEND_URL trim
             (Resolved s1 d1 :: Resolved s2 d2 :: third :: Resolved s4 d4 :: rest)).2 =
    ([HttpGet "http://169.254.169.254/latest/meta-data/instance-id";
      HttpGet "http://169.254.169.254/latest/meta-data/local-ipv4";
      HttpGet "http://169.254.169.254/latest/meta-data/public-ipv4";
      HttpPost (BACKEND_URL ++ "/register")
        {[ "instanceId" := VStr id; "privateIp" := VStr (trim d2);
           "publicIp" := publicIp ]};
      ConsoleLog "Registered:" id;
      HttpPost (BACKEND_URL ++ "/heartbeat") {[ "instanceId" := VStr id ]}] ++ later)%list.
Proof.
  intros id publicIp. unfold main. cbn [length].
  remember (S (S (S (length rest)))) as F eqn:HF.
  change (mainLoop BACKEND_URL trim (S (S F))) with
    (bind (attempt BACKEND_URL trim (S F)) (fun _ => mainLoop BACKEND_URL trim (S F))).
  set (net := Resolved s1 d1 :: Resolved s2 d2 :: third :: Resolved s4 d4 :: rest).
  set (six := [HttpGet "http://169.254.169.254/latest/meta-data/instance-id";
               HttpGet "http://169.254.169.254/latest/meta-data/local-ipv4";
               HttpGet "http://169.254.169.254/latest/meta-data/public-ipv4";
               HttpPost (BACKEND_URL ++ "/register")
                 {[ "instanceId" := VStr id; "privateIp" := VStr (trim d2);
                    "publicIp" := publicIp ]};
               ConsoleLog "Registered:" id;
               HttpPost (BACKEND_URL ++ "/heartbeat") {[ "instanceId" := VStr id ]}]).
  assert (Hattempt : exists added,
            trace (attempt BACKEND_URL trim (S F) (mkRun net [])).2 = (six ++ added)%list).
  { subst net six publicIp. clear HF.
    unfold attempt, try_catch, getMetadata, httpGet, httpPost, sleep.
    unfold bind, request, emit, ret. cbn [inbox trace fst snd app].
    destruct third as [s3 d3 | m3]; cbn [inbox trace fst snd app].
    all: rewrite heartbeatLoop_S.
    all: destruct rest as [| [s5 d5 | m5] rest']; cbn [inbox trace fst snd app];
      [exists []; reflexivity | | eexists; reflexivity].
    all: match goal with
         | |- context [heartbeatLoop _ ?f ?i ?r0] =>
             destruct (extends_heartbeatLoop f i r0) as [added Hadd];
             destruct (heartbeatLoop BACKEND_URL f i r0) as [[[] | e | |] r1];
             cbn [fst snd inbox trace app] in *; rewrite Hadd
         end.
    all: eexists; reflexivity. }
  destruct Hattempt as [added1 H1]. unfold bind.
  destruct (attempt BACKEND_URL trim (S F) (mkRun net [])) as [[[] | e | |] r1];
    cbn [fst snd trace] in *.
  all: try (exists added1; exact H1).
  destruct (extends_mainLoop (S F) r1) as [added3 H3].
  exists (added1 ++ added3)%list. rewrite H3, H1. by rewrite app_assoc.
Qed.

End AgentFacts.
